(** * ChemEconAI: the profitability engine

    A shallow embedding of [src/utils/calculations.py] and
    [src/economics/profitability.py], and the properties of the cash-flow
    engine (NPV, IRR, payback, ROI, sensitivity and Monte-Carlo drivers)
    stated over it.

    Numbers.  Python floats are idealised as exact rationals ([Qc], the
    canonical rationals, whose equality is Leibniz equality): rounding,
    overflow, infinities and NaN are outside the model.  The difference
    between a Python [int] and a Python [float] is kept where the code
    depends on it, namely for [project_lifetime], which is handed to
    [range].

    Errors.  A Python exception is a value [Raise e] of the [result] type;
    every [try: ... except Exception as e: raise ValueError(...)] of the
    source is the function [reraise_ValueError].

    State.  The functions of the first part compute the values the methods
    return; [Module Analyzer] then gives the methods themselves, over a store
    in which the attribute [self.results] and the dictionaries it refers to
    live. *)

From Stdlib Require Import Ascii QArith Qcanon Lqa.
From stdpp Require Import base option list gmap strings numbers.

Local Open Scope Qc_scope.

(** ** Exceptions and the error monad *)

Inductive pyerr : Set :=
  | ValueError
  | TypeError
  | ZeroDivisionError
  | IndexError
  | KeyError.

Inductive result (A : Type) : Type :=
  | Ok (a : A)
  | Raise (e : pyerr).
Arguments Ok {A} a.
Arguments Raise {A} e.

#[global] Instance pyerr_eq_dec : EqDecision pyerr.
Proof. solve_decision. Defined.
#[global] Instance result_eq_dec `{EqDecision A} : EqDecision (result A).
Proof. solve_decision. Defined.

#[global] Instance result_ret : MRet result := @Ok.
#[global] Instance result_bind : MBind result := λ A B f m,
  match m with
  | Ok a => f a
  | Raise e => Raise e
  end.

#[global] Instance result_fmap : FMap result := λ A B f m,
  match m with
  | Ok a => Ok (f a)
  | Raise e => Raise e
  end.

Definition is_Ok {A} (m : result A) : Prop := ∃ a, m = Ok a.
Definition is_Raise {A} (m : result A) : Prop := ∃ e, m = Raise e.

#[global] Instance is_Ok_dec {A} (m : result A) : Decision (is_Ok m).
Proof.
  refine (match m with Ok a => left _ | Raise e => right _ end).
  - by exists a.
  - by intros [? ?].
Defined.

(** [try: body except Exception as e: raise ValueError(...)] *)
Definition reraise_ValueError {A} (body : result A) : result A :=
  match body with
  | Ok a => Ok a
  | Raise _ => Raise ValueError
  end.

(** A [for] loop whose body may raise: the accumulator is threaded from left
    to right and the first exception ends the loop. *)
Fixpoint for_each {A B} (body : B → A → result B) (acc : B) (l : list A)
    : result B :=
  match l with
  | [] => Ok acc
  | x :: l' => acc' ← body acc x; for_each body acc' l'
  end.

(** ** Python numbers *)

(** The rational [n/d]; [qc 1 10] is the literal [0.1]. *)
Definition qc (n : Z) (d : positive) : Qc := Q2Qc (n # d).

Definition Qc_of_nat (n : nat) : Qc := Qc_of_Z (Z.of_nat n).

Inductive pynum : Set :=
  | PyInt (z : Z)
  | PyFloat (q : Qc).

#[global] Instance pynum_eq_dec : EqDecision pynum.
Proof. solve_decision. Defined.

Definition pyvalue (v : pynum) : Qc :=
  match v with
  | PyInt z => Qc_of_Z z
  | PyFloat q => q
  end.

(** [x / y]: true division raises on a zero divisor. *)
Definition truediv (x y : Qc) : result Qc :=
  if decide (y = 0) then Raise ZeroDivisionError else Ok (x / y).

(** [abs(x)] *)
Definition pyabs (x : Qc) : Qc := if decide (x < 0) then - x else x.

(** [max(a, b)]: the first argument unless the second is strictly larger. *)
Definition pymax (a b : Qc) : Qc := if decide (a < b) then b else a.

(** [enumerate(l)] *)
Definition enumerate {A} (l : list A) : list (nat * A) := imap pair l.

(** [sum(...)] over a generator whose items may raise when they are
    produced: the built-in starts from [0] and adds from left to right. *)
Definition pysum (items : list (result Qc)) : result Qc :=
  for_each (λ acc item, v ← item; Ok (acc + v)) 0 items.

(** ** [src/utils/calculations.py] *)

(** [calculate_npv], lines 10-27. *)
Definition npv_body (discount_rate : Qc) (npv : Qc) (ic : nat * Qc)
    : result Qc :=
  term ← truediv ic.2 ((1 + discount_rate) ^ ic.1);
  Ok (npv + term).

Definition calculate_npv (cash_flows : list Qc) (discount_rate : Qc)
    : result Qc :=
  reraise_ValueError
    (for_each (npv_body discount_rate) 0 (enumerate cash_flows)).

(** [calculate_irr], lines 29-67.  The two generator expressions of the loop
    body: *)
Definition irr_npv (cash_flows : list Qc) (rate : Qc) : result Qc :=
  pysum ((λ ic : nat * Qc, truediv ic.2 ((1 + rate) ^ ic.1))
           <$> enumerate cash_flows).

Definition irr_dnpv (cash_flows : list Qc) (rate : Qc) : result Qc :=
  pysum ((λ ic : nat * Qc,
            truediv (- Qc_of_nat ic.1 * ic.2) ((1 + rate) ^ (ic.1 + 1)))
           <$> filter (λ ic : nat * Qc, (0 < ic.1)%nat)
                      (enumerate cash_flows)).

(** How the solver left its loop: [return rate] inside the loop
    (convergence), [break] (the derivative stalled), or the end of
    [range(max_iterations)]. *)
Inductive irr_exit : Set := Converged | Stalled | Exhausted.

#[global] Instance irr_exit_eq_dec : EqDecision irr_exit.
Proof. solve_decision. Defined.

Definition clamp_rate (rate : Qc) : Qc :=
  if decide (rate < - qc 99 100) then - qc 99 100 else rate.

Fixpoint irr_loop (cash_flows : list Qc) (tolerance : Qc)
    (iterations : nat) (rate : Qc) : result (Qc * irr_exit) :=
  match iterations with
  | O => Ok (rate, Exhausted)
  | S iterations' =>
      npv ← irr_npv cash_flows rate;
      dnpv ← irr_dnpv cash_flows rate;
      if decide (pyabs npv < tolerance) then Ok (rate, Converged)
      else if decide (pyabs dnpv < tolerance) then Ok (rate, Stalled)
      else
        step ← truediv npv dnpv;
        irr_loop cash_flows tolerance iterations' (clamp_rate (rate - step))
  end.

(** The solver together with the exit it took. *)
Definition calculate_irr_exit (cash_flows : list Qc) (max_iterations : Z)
    (tolerance : Qc) : result (Qc * irr_exit) :=
  reraise_ValueError
    (if decide (length cash_flows < 2)%nat then Raise ValueError
     else irr_loop cash_flows tolerance (Z.to_nat max_iterations) (qc 1 10)).

Definition calculate_irr (cash_flows : list Qc) (max_iterations : Z)
    (tolerance : Qc) : result Qc :=
  fst <$> calculate_irr_exit cash_flows max_iterations tolerance.

(** The defaults [max_iterations=1000, tolerance=1e-6]. *)
Definition default_max_iterations : Z := 1000.
Definition default_tolerance : Qc := qc 1 1000000.

(** [calculate_payback_period], lines 69-96.  The loop either returns the
    interpolated year ([inl]) or runs to the end of the list and leaves the
    cumulative cash flow ([inr]). *)
Fixpoint payback_loop (initial_investment : Qc) (year : nat)
    (cumulative_cash_flow : Qc) (annual_cash_flows : list Qc)
    : result (Qc + Qc) :=
  match annual_cash_flows with
  | [] => Ok (inr cumulative_cash_flow)
  | cash_flow :: rest =>
      let cumulative_cash_flow := cumulative_cash_flow + cash_flow in
      if decide (initial_investment ≤ cumulative_cash_flow) then
        let excess := cumulative_cash_flow - initial_investment in
        fraction ← truediv excess cash_flow;
        Ok (inl (Qc_of_nat year + 1 - fraction))
      else payback_loop initial_investment (S year) cumulative_cash_flow rest
  end.

(** [annual_cash_flows[-1]] *)
Definition last_item (l : list Qc) : result Qc :=
  match list.last l with
  | Some x => Ok x
  | None => Raise IndexError
  end.

Definition calculate_payback_period (initial_investment : Qc)
    (annual_cash_flows : list Qc) : result Qc :=
  reraise_ValueError
    (r ← payback_loop initial_investment 0 0 annual_cash_flows;
     match r with
     | inl years => Ok years
     | inr cumulative_cash_flow =>
         last_flow ← last_item annual_cash_flows;
         extra ← truediv (initial_investment - cumulative_cash_flow) last_flow;
         Ok (Qc_of_nat (length annual_cash_flows) + extra)
     end).

(** [calculate_roi], lines 98-114. *)
Definition calculate_roi (profit investment : Qc) : result Qc :=
  reraise_ValueError
    (if decide (investment = 0) then Raise ValueError
     else q ← truediv profit investment; Ok (q * qc 100 1)).

(** ** [src/economics/profitability.py] *)

(** The dictionary built at lines 92-102. *)
Record ProfitabilityResult : Type := {
  npv : Qc;
  irr : Qc;
  payback_period : Qc;
  roi : Qc;
  profitability_index : Qc;
  annual_cash_flow : Qc;
  total_revenue : Qc;
  total_costs : Qc;
  break_even_price : Qc
}.

#[global] Instance ProfitabilityResult_eq_dec : EqDecision ProfitabilityResult.
Proof. solve_decision. Defined.

(** [range(1, n + 1)]: only an [int] is accepted. *)
Definition years_range (project_lifetime : pynum) : result (list nat) :=
  match project_lifetime with
  | PyInt n => Ok (seq 1 (Z.to_nat n))
  | PyFloat _ => Raise TypeError
  end.

(** The body of the [for year in range(1, project_lifetime + 1)] loop, lines
    67-79: it appends one entry to [cash_flows]. *)
Definition cash_flow_body (annual_revenue annual_operating_costs tax_rate
    salvage_value annual_depreciation : Qc) (project_lifetime : pynum)
    (cash_flows : list Qc) (year : nat) : list Qc :=
  let gross_profit := annual_revenue - annual_operating_costs in
  let taxable_income := gross_profit - annual_depreciation in
  let taxes := pymax 0 (taxable_income * tax_rate) in
  let after_tax_income := taxable_income - taxes in
  let annual_cash_flow := after_tax_income + annual_depreciation in
  let annual_cash_flow :=
    if decide (Qc_of_nat year = pyvalue project_lifetime)
    then annual_cash_flow + salvage_value else annual_cash_flow in
  cash_flows ++ [annual_cash_flow].

(** Lines 60-79: the cash-flow series of [analyze_profitability]. *)
Definition build_cash_flows (capital_investment annual_revenue
    annual_operating_costs : Qc) (project_lifetime : pynum)
    (tax_rate salvage_value : Qc) : result (list Qc) :=
  annual_depreciation ←
    truediv (capital_investment - salvage_value) (pyvalue project_lifetime);
  years ← years_range project_lifetime;
  Ok (foldl (cash_flow_body annual_revenue annual_operating_costs tax_rate
               salvage_value annual_depreciation project_lifetime)
            [- capital_investment] years).

(** Lines 89-90. *)
Definition break_even (annual_revenue annual_operating_costs : Qc)
    : result Qc :=
  if decide (annual_operating_costs < annual_revenue) then
    ratio ← truediv annual_revenue (annual_revenue - annual_operating_costs);
    truediv annual_operating_costs ratio
  else Ok 0.

(** [cash_flows[1] if len(cash_flows) > 1 else 0] *)
Definition first_year_flow (cash_flows : list Qc) : Qc :=
  default 0 (cash_flows !! 1%nat).

(** The value computed by [analyze_profitability], lines 59-107: what the
    returned dictionary holds, or the [ValueError] the [except] clause
    raises. *)
Definition analyze_profitability (capital_investment annual_revenue
    annual_operating_costs : Qc) (project_lifetime : pynum)
    (discount_rate tax_rate salvage_value : Qc)
    : result ProfitabilityResult :=
  reraise_ValueError
    (cash_flows ← build_cash_flows capital_investment annual_revenue
                   annual_operating_costs project_lifetime tax_rate
                   salvage_value;
     npv ← calculate_npv cash_flows discount_rate;
     irr ← calculate_irr cash_flows default_max_iterations default_tolerance;
     payback_period ←
       calculate_payback_period capital_investment (drop 1 cash_flows);
     roi ← calculate_roi (annual_revenue - annual_operating_costs)
             capital_investment;
     profitability_index ← truediv (npv + capital_investment)
                             capital_investment;
     break_even_price ← break_even annual_revenue annual_operating_costs;
     Ok {| npv := npv;
           irr := irr * qc 100 1;
           payback_period := payback_period;
           roi := roi;
           profitability_index := profitability_index;
           annual_cash_flow := first_year_flow cash_flows;
           total_revenue := annual_revenue * pyvalue project_lifetime;
           total_costs := annual_operating_costs * pyvalue project_lifetime;
           break_even_price := break_even_price |}).

(** Defaults of the signature: [tax_rate=0.3, salvage_value=0]. *)
Definition default_tax_rate : Qc := qc 3 10.
Definition default_salvage_value : Qc := 0.

(** *** Calling the Aggregator with a dictionary of keyword arguments *)

(** The parameter names of [analyze_profitability]. *)
Definition parameter_names : gset string :=
  {[ "capital_investment"; "annual_revenue"; "annual_operating_costs";
     "project_lifetime"; "discount_rate"; "tax_rate"; "salvage_value" ]}.

(** The call of [self.analyze_profitability] with a dictionary unpacked into
    keyword arguments: a keyword the signature does not have, or a missing
    required one, is a [TypeError] raised by the call itself, outside the
    [try] of the method. *)
Definition call_analyze (kwargs : gmap string pynum)
    : result ProfitabilityResult :=
  if decide (dom kwargs ⊆ parameter_names) then
    match kwargs !! "capital_investment", kwargs !! "annual_revenue",
          kwargs !! "annual_operating_costs", kwargs !! "project_lifetime",
          kwargs !! "discount_rate" with
    | Some capital_investment, Some annual_revenue,
      Some annual_operating_costs, Some project_lifetime,
      Some discount_rate =>
        analyze_profitability (pyvalue capital_investment)
          (pyvalue annual_revenue) (pyvalue annual_operating_costs)
          project_lifetime (pyvalue discount_rate)
          (default default_tax_rate (pyvalue <$> kwargs !! "tax_rate"))
          (default default_salvage_value
             (pyvalue <$> kwargs !! "salvage_value"))
    | _, _, _, _, _ => Raise TypeError
    end
  else Raise TypeError.

(** *** [sensitivity_analysis], lines 109-145 *)

(** One dictionary appended to [sensitivity_results]. *)
Record SensitivityRow : Type := {
  parameter : string;
  change_percent : Qc;
  sens_npv : Qc;
  sens_irr : Qc;
  sens_payback_period : Qc
}.

#[global] Instance SensitivityRow_eq_dec : EqDecision SensitivityRow.
Proof. solve_decision. Defined.

(** The dictionary of lines 137-143. *)
Definition sensitivity_row (param_name : string) (change_percent : Qc)
    (results : ProfitabilityResult) : SensitivityRow :=
  {| parameter := param_name;
     change_percent := change_percent;
     sens_npv := npv results;
     sens_irr := irr results;
     sens_payback_period := payback_period results |}.

(** [base_value * (1 + change_percent / 100)]: the quotient is a float, and
    so is the product. *)
Definition perturbed (base_value : pynum) (change_percent : Qc) : pynum :=
  PyFloat (pyvalue base_value * (1 + change_percent / qc 100 1)).

(** The body of the inner loop, lines 130-143. *)
Definition sensitivity_body (base_parameters : gmap string pynum)
    (param_name : string) (base_value : pynum)
    (sensitivity_results : list SensitivityRow) (change_percent : Qc)
    : result (list SensitivityRow) :=
  let new_value := perturbed base_value change_percent in
  let modified_params := <[param_name := new_value]> base_parameters in
  results ← call_analyze modified_params;
  Ok (sensitivity_results
        ++ [sensitivity_row param_name change_percent results]).

(** [sensitivity_ranges] is iterated in the order of its items, so it is the
    list of its items; the returned [DataFrame] is the list of its rows. *)
Definition sensitivity_analysis (base_parameters : gmap string pynum)
    (sensitivity_ranges : list (string * list Qc))
    : result (list SensitivityRow) :=
  for_each
    (λ sensitivity_results (item : string * list Qc),
       match base_parameters !! item.1 with
       | None => Ok sensitivity_results
       | Some base_value =>
           for_each (sensitivity_body base_parameters item.1 base_value)
                    sensitivity_results item.2
       end)
    [] sensitivity_ranges.

(** *** [monte_carlo_analysis], lines 147-188 *)

(** A distribution dictionary that holds the entries its ['type'] needs; any
    type other than the three that are sampled takes the ['mean'] entry as
    it is. *)
Inductive distribution : Type :=
  | Normal (mean std : Qc)
  | Triangular (min mode max : Qc)
  | Uniform (min max : Qc)
  | OtherType (mean : pynum).

Record SimulationRow : Type := {
  simulation : nat;
  sim_npv : Qc;
  sim_irr : Qc;
  sim_payback_period : Qc;
  sim_roi : Qc
}.

#[global] Instance SimulationRow_eq_dec : EqDecision SimulationRow.
Proof. solve_decision. Defined.

(** The dictionary of lines 178-184. *)
Definition simulation_row (number : nat) (sim_results : ProfitabilityResult)
    : SimulationRow :=
  {| simulation := number;
     sim_npv := npv sim_results;
     sim_irr := irr sim_results;
     sim_payback_period := payback_period sim_results;
     sim_roi := roi sim_results |}.

(** [max(0, value)]: the integer [0] unless [value] is strictly larger. *)
Definition clamp_nonneg (value : pynum) : pynum :=
  if decide (0 < pyvalue value) then value else PyInt 0.

(** NumPy's generator is outside the repository: it is an interface over a
    type [rng] of generator states, in which each sampler returns the drawn
    float and the next state. *)
Class RandomState (rng : Type) : Type := {
  random_normal : Qc → Qc → rng → Qc * rng;
  random_triangular : Qc → Qc → Qc → rng → Qc * rng;
  random_uniform : Qc → Qc → rng → Qc * rng
}.

Section monte_carlo.
Context `{RandomState rng}.

(** Lines 164-171. *)
Definition sample (param_dist : distribution) (g : rng) : pynum * rng :=
  match param_dist with
  | Normal mean std => prod_map PyFloat id (random_normal mean std g)
  | Triangular min mode max =>
      prod_map PyFloat id (random_triangular min mode max g)
  | Uniform min max => prod_map PyFloat id (random_uniform min max g)
  | OtherType mean => (mean, g)
  end.

(** The loop over [parameters.items()], lines 163-173. *)
Definition sample_parameters (parameters : list (string * distribution))
    (g : rng) : gmap string pynum * rng :=
  foldl (λ (acc : gmap string pynum * rng) (item : string * distribution),
           let '(value, g') := sample item.2 acc.2 in
           (<[item.1 := clamp_nonneg value]> acc.1, g'))
        (∅, g) parameters.

(** The body of the outer loop, lines 161-186: a failed Aggregator call is
    swallowed by the bare [except]. *)
Definition simulation_body (parameters : list (string * distribution))
    (acc : list SimulationRow * rng) : list SimulationRow * rng :=
  let '(results, g) := acc in
  let '(sim_params, g') := sample_parameters parameters g in
  match call_analyze sim_params with
  | Ok sim_results =>
      (results ++ [simulation_row (length results + 1) sim_results], g')
  | Raise _ => (results, g')
  end.

Definition monte_carlo_analysis (parameters : list (string * distribution))
    (n_simulations : Z) (g : rng) : list SimulationRow * rng :=
  Nat.iter (Z.to_nat n_simulations) (simulation_body parameters) ([], g).

End monte_carlo.


(** ** The analyzer object and the dictionaries it shares *)

(** [ProfitabilityAnalyzer] keeps one attribute, [self.results], a reference
    to a dictionary.  The methods are modelled over a store of dictionaries:
    a location is an index in the allocation order, a dictionary literal
    allocates a new location, and [self.results = d] re-binds the attribute
    without touching any dictionary. *)
Module Analyzer.

Definition loc : Set := nat.

(** The dictionaries [self.results] can refer to: the empty one of
    [__init__], or one built at lines 92-102. *)
Inductive object : Type :=
  | EmptyDict
  | ResultDict (r : ProfitabilityResult).

Record state : Type := {
  heap : list object;
  results : loc
}.

(** [__init__], lines 16-17: [self.results = {}], in a store that already
    holds the dictionaries of [h]. *)
Definition init (h : list object) : state :=
  {| heap := h ++ [EmptyDict]; results := length h |}.

(** Computations that read and write the store and may raise. *)
Definition M (A : Type) : Type := state → result A * state.

Definition ret {A} (a : A) : M A := λ σ, (Ok a, σ).

Definition lift {A} (r : result A) : M A := λ σ, (r, σ).

Definition bind {A B} (m : M A) (k : A → M B) : M B := λ σ,
  match m σ with
  | (Ok a, σ') => k a σ'
  | (Raise e, σ') => (Raise e, σ')
  end.

(** A dictionary literal. *)
Definition new_dict (r : ProfitabilityResult) : M loc := λ σ,
  (Ok (length (heap σ)),
   {| heap := heap σ ++ [ResultDict r]; results := results σ |}).

(** [self.results = d] *)
Definition set_results (d : loc) : M unit := λ σ,
  (Ok tt, {| heap := heap σ; results := d |}).

(** [self.results] *)
Definition get_results : M loc := λ σ, (Ok (results σ), σ).

(** The entries of the dictionary at [d], as [d['npv']] and the like read
    them. *)
Definition read_dict (d : loc) : M ProfitabilityResult := λ σ,
  match heap σ !! d with
  | Some (ResultDict r) => (Ok r, σ)
  | _ => (Raise KeyError, σ)
  end.

(** A [for] loop in the store. *)
Fixpoint for_each {A B} (body : B → A → M B) (acc : B) (l : list A)
    : M B :=
  match l with
  | [] => ret acc
  | x :: l' => bind (body acc x) (λ acc', for_each body acc' l')
  end.

(** Lines 92-104, after the metrics have been computed: the dictionary is
    allocated, bound to [self.results] and returned through that
    attribute.  An exception leaves before line 92. *)
Definition store_results (computed : result ProfitabilityResult) : M loc :=
  bind (lift computed) (λ r,
  bind (new_dict r) (λ d,
  bind (set_results d) (λ _,
  get_results))).

(** The method [analyze_profitability]. *)
Definition analyze_profitability (capital_investment annual_revenue
    annual_operating_costs : Qc) (project_lifetime : pynum)
    (discount_rate tax_rate salvage_value : Qc) : M loc :=
  store_results
    (analyze_profitability capital_investment annual_revenue
       annual_operating_costs project_lifetime discount_rate tax_rate
       salvage_value).

(** The method called with a dictionary of keyword arguments. *)
Definition call_analyze (kwargs : gmap string pynum) : M loc :=
  store_results (call_analyze kwargs).

(** The method [sensitivity_analysis]. *)
Definition sensitivity_body (base_parameters : gmap string pynum)
    (param_name : string) (base_value : pynum)
    (sensitivity_results : list SensitivityRow) (change_percent : Qc)
    : M (list SensitivityRow) :=
  let new_value := perturbed base_value change_percent in
  let modified_params := <[param_name := new_value]> base_parameters in
  bind (call_analyze modified_params) (λ d,
  bind (read_dict d) (λ results,
  ret (sensitivity_results
         ++ [sensitivity_row param_name change_percent results]))).

Definition sensitivity_analysis (base_parameters : gmap string pynum)
    (sensitivity_ranges : list (string * list Qc))
    : M (list SensitivityRow) :=
  for_each
    (λ sensitivity_results (item : string * list Qc),
       match base_parameters !! item.1 with
       | None => ret sensitivity_results
       | Some base_value =>
           for_each (sensitivity_body base_parameters item.1 base_value)
                    sensitivity_results item.2
       end)
    [] sensitivity_ranges.

(** The method [monte_carlo_analysis]. *)
Section monte_carlo.
Context `{RandomState rng}.

Definition simulation_body (parameters : list (string * distribution))
    (acc : list SimulationRow * rng) (σ : state)
    : (list SimulationRow * rng) * state :=
  let '(results, g) := acc in
  let '(sim_params, g') := sample_parameters parameters g in
  match bind (call_analyze sim_params) read_dict σ with
  | (Ok sim_results, σ') =>
      ((results ++ [simulation_row (length results + 1) sim_results], g'),
       σ')
  | (Raise _, σ') => ((results, g'), σ')
  end.

Definition monte_carlo_analysis
    (parameters : list (string * distribution)) (n_simulations : Z)
    (g : rng) (σ : state) : (list SimulationRow * rng) * state :=
  Nat.iter (Z.to_nat n_simulations)
    (λ st, simulation_body parameters st.1 st.2) (([], g), σ).
End monte_carlo.

End Analyzer.

(** ** Quantities the specification names *)

(** The sum [cash_flows[0] / (1 + r)^0 + ... + cash_flows[N] / (1 + r)^N]. *)
Definition discounted_sum (cash_flows : list Qc) (discount_rate : Qc) : Qc :=
  foldr Qcplus 0 (imap (λ i cf, cf / (1 + discount_rate) ^ i) cash_flows).

(** The cumulative cash flow after the first [k] years. *)
Definition cumulative (annual_cash_flows : list Qc) (k : nat) : Qc :=
  foldl Qcplus 0 (take k annual_cash_flows).

(** The running cumulative sum reaches [initial_investment] for the first
    time in the 1-based year [k]. *)
Definition first_recovered (initial_investment : Qc)
    (annual_cash_flows : list Qc) (k : nat) : Prop :=
  (1 ≤ k ≤ length annual_cash_flows)%nat
  ∧ (∀ j : nat, (1 ≤ j < k)%nat →
       cumulative annual_cash_flows j < initial_investment)
  ∧ initial_investment ≤ cumulative annual_cash_flows k.

(** The [(parameter, percent_change)] pairs of the ranges whose parameter is
    a key of the base mapping, in the order of the ranges. *)
Definition sensitivity_pairs (base_parameters : gmap string pynum)
    (sensitivity_ranges : list (string * list Qc)) : list (string * Qc) :=
  item ← sensitivity_ranges;
  if decide (is_Some (base_parameters !! item.1))
  then pair item.1 <$> item.2 else [].

(** The row of one pair: the Aggregator run on the base mapping in which
    that parameter alone is replaced by its perturbed value. *)
Definition perturbed_row (base_parameters : gmap string pynum)
    (pair : string * Qc) : result SensitivityRow :=
  match base_parameters !! pair.1 with
  | None => Raise KeyError
  | Some base_value =>
      sensitivity_row pair.1 pair.2
        <$> call_analyze
              (<[pair.1 := perturbed base_value pair.2]> base_parameters)
  end.

(** Every dictionary of the store [σ] is in [σ'], with the same entries. *)
Definition unchanged (σ σ' : Analyzer.state) : Prop :=
  ∀ (d : Analyzer.loc) (obj : Analyzer.object),
    Analyzer.heap σ !! d = Some obj → Analyzer.heap σ' !! d = Some obj.

(** A computation only adds dictionaries to the store. *)
Definition extending {A} (m : Analyzer.M A) : Prop :=
  ∀ σ, Analyzer.heap σ `prefix_of` Analyzer.heap (m σ).2.

(** ** Example data *)

(** Investment 100, one year, revenue 110, no costs, no tax, no salvage
    value, discounted at 10%. *)
Definition one_year_project : gmap string pynum :=
  list_to_map
    [ ("capital_investment", PyInt 100); ("annual_revenue", PyInt 110);
      ("annual_operating_costs", PyInt 0); ("project_lifetime", PyInt 1);
      ("discount_rate", PyFloat (qc 1 10)); ("tax_rate", PyInt 0);
      ("salvage_value", PyInt 0) ].




(** ** More of [src/economics/profitability.py] *)

(** [calculate_annual_cash_flow], lines 19-38; [taxes] and [depreciation]
    default to [0]. *)
Definition calculate_annual_cash_flow (revenue operating_costs taxes
    depreciation : Qc) : Qc :=
  let gross_profit := revenue - operating_costs in
  let taxable_income := gross_profit - depreciation in
  let after_tax_income := taxable_income - taxes in
  let cash_flow := after_tax_income + depreciation in
  cash_flow.

(** The entry that the loop of lines 66-79 appends for [year]. *)
Definition annual_flow_of_year (annual_revenue annual_operating_costs
    tax_rate salvage_value annual_depreciation : Qc)
    (project_lifetime : pynum) (year : nat) : Qc :=
  let gross_profit := annual_revenue - annual_operating_costs in
  let taxable_income := gross_profit - annual_depreciation in
  let taxes := pymax 0 (taxable_income * tax_rate) in
  let after_tax_income := taxable_income - taxes in
  let annual_cash_flow := after_tax_income + annual_depreciation in
  if decide (Qc_of_nat year = pyvalue project_lifetime)
  then annual_cash_flow + salvage_value else annual_cash_flow.

(** ** More of [src/utils/calculations.py] *)

(** [cepci_cost_update], lines 137-155. *)
Definition cepci_cost_update (base_cost base_year_index current_year_index
    : Qc) : result Qc :=
  reraise_ValueError
    (if decide (base_year_index ≤ 0 ∨ current_year_index ≤ 0)
     then Raise ValueError
     else
       ratio ← truediv current_year_index base_year_index;
       Ok (base_cost * ratio)).

(** The module-level [sensitivity_analysis] of lines 157-183, which shares
    its name with the method of the analyzer.  [calculation_function] is any
    callable of one number, the keyword arguments being fixed; the result
    dictionary is keyed by the percentage changes. *)
Module Calculations.

Definition sensitivity_body (base_value base_result : Qc)
    (calculation_function : Qc → result Qc)
    (sensitivity_results : gmap Qc Qc) (change_percent : Qc)
    : result (gmap Qc Qc) :=
  let new_value := base_value * (1 + change_percent / qc 100 1) in
  new_result ← calculation_function new_value;
  ratio ← truediv (new_result - base_result) base_result;
  let result_change := ratio * qc 100 1 in
  Ok (<[change_percent := result_change]> sensitivity_results).

Definition sensitivity_analysis (base_value : Qc)
    (parameter_changes : list Qc) (calculation_function : Qc → result Qc)
    : result (gmap Qc Qc) :=
  reraise_ValueError
    (base_result ← calculation_function base_value;
     for_each (sensitivity_body base_value base_result calculation_function)
              ∅ parameter_changes).

End Calculations.

(** ** [src/economics/capital_cost.py] *)

(** [_get_installation_factors], lines 59-70. *)
Definition installation_factors : gmap string Qc :=
  list_to_map
    [ ("reactor", qc 35 10);
      ("distillation_column", qc 4 1);
      ("heat_exchanger", qc 25 10);
      ("pump", qc 2 1);
      ("tank", qc 22 10);
      ("default", qc 3 1) ].

(** [s.split('_')[0]]: the part of [s] before its first underscore, all of
    [s] when it has none. *)
Fixpoint split_first (s : string) : string :=
  match s with
  | EmptyString => EmptyString
  | String c s' =>
      if Ascii.eqb c "_"%char then EmptyString else String c (split_first s')
  end.

(** A value of [equipment_costs]: a number, or a dictionary of numbers such
    as [calculate_total_equipment_cost] builds. *)
Inductive cost_data : Type :=
  | CostNumber (cost : Qc)
  | CostDict (entries : gmap string Qc).

(** [calculate_installed_cost], lines 141-166.  [equipment_costs] is given by
    its items in order; the accumulator is [installed_costs] and
    [total_installed_cost].  The method has no handler, so the [KeyError] of
    [cost_data['total_cost']] reaches the caller. *)
Definition installed_cost_body (acc : gmap string Qc * Qc)
    (item : string * cost_data) : result (gmap string Qc * Qc) :=
  let '(equipment_id, data) := item in
  if decide (equipment_id = "total_equipment_cost") then Ok acc
  else
    let equipment_type := split_first equipment_id in
    let installation_factor :=
      default (qc 3 1) (installation_factors !! equipment_type) in
    equipment_cost ←
      match data with
      | CostDict entries =>
          match entries !! "total_cost" with
          | Some cost => Ok cost
          | None => Raise KeyError
          end
      | CostNumber cost => Ok cost
      end;
    let installed_cost := equipment_cost * installation_factor in
    Ok (<[equipment_id := installed_cost]> acc.1, acc.2 + installed_cost).

Definition calculate_installed_cost
    (equipment_costs : list (string * cost_data))
    : result (gmap string Qc) :=
  acc ← for_each installed_cost_body (∅, 0) equipment_costs;
  Ok (<["total_installed_cost" := acc.2]> acc.1).

(** [estimate_total_capital_investment], lines 168-225.  The inner
    dictionaries of [factors] have the same four keys, and the result has
    seven fixed keys: both are records. *)
Record PlantFactors : Type := {
  engineering : Qc;
  construction : Qc;
  contingency_factor : Qc;
  working_capital_factor : Qc
}.

Definition factors : gmap string PlantFactors :=
  list_to_map
    [ ("chemical",
       {| engineering := qc 15 100; construction := qc 20 100;
          contingency_factor := qc 15 100;
          working_capital_factor := qc 10 100 |});
      ("pharmaceutical",
       {| engineering := qc 20 100; construction := qc 25 100;
          contingency_factor := qc 20 100;
          working_capital_factor := qc 15 100 |}) ].

Record CapitalBreakdown : Type := {
  installed_equipment_cost : Qc;
  engineering_cost : Qc;
  construction_cost : Qc;
  contingency : Qc;
  fixed_capital_investment : Qc;
  working_capital : Qc;
  total_capital_investment : Qc
}.

Definition estimate_total_capital_investment (total_installed_cost : Qc)
    (plant_type : string) : CapitalBreakdown :=
  let chemical :=
    {| engineering := qc 15 100; construction := qc 20 100;
       contingency_factor := qc 15 100;
       working_capital_factor := qc 10 100 |} in
  let plant_factors := default chemical (factors !! plant_type) in
  let engineering_cost := total_installed_cost * engineering plant_factors in
  let construction_cost :=
    total_installed_cost * construction plant_factors in
  let fixed_capital :=
    total_installed_cost + engineering_cost + construction_cost in
  let contingency := fixed_capital * contingency_factor plant_factors in
  let total_fixed_capital := fixed_capital + contingency in
  let working_capital :=
    total_fixed_capital * working_capital_factor plant_factors in
  let total_capital_investment := total_fixed_capital + working_capital in
  {| installed_equipment_cost := total_installed_cost;
     engineering_cost := engineering_cost;
     construction_cost := construction_cost;
     contingency := contingency;
     fixed_capital_investment := total_fixed_capital;
     working_capital := working_capital;
     total_capital_investment := total_capital_investment |}.

(** ** [src/economics/operating_cost.py] *)

(** A dictionary of numbers by its items in insertion order, as
    [sum(d.values())] walks it. *)
Definition sum_values (d : list (string * Qc)) : Qc := foldl Qcplus 0 d.*2.

(** [d[key]] for a key that is present. *)
Fixpoint getitem (d : list (string * Qc)) (key : string) : option Qc :=
  match d with
  | [] => None
  | (k, v) :: d' => if decide (k = key) then Some v else getitem d' key
  end.

(** [calculate_overhead_costs], lines 168-190; [overhead_factor] defaults to
    [0.60]. *)
Definition calculate_overhead_costs (direct_costs : list (string * Qc))
    (overhead_factor : Qc) : list (string * Qc) :=
  let total_direct_costs := sum_values direct_costs in
  let overhead_costs :=
    [ ("administrative", total_direct_costs * qc 15 100);
      ("sales_marketing", total_direct_costs * qc 10 100);
      ("research_development", total_direct_costs * qc 5 100);
      ("general_overhead",
       total_direct_costs * (overhead_factor - qc 30 100)) ] in
  overhead_costs ++ [("total_overhead_cost", sum_values overhead_costs)].

(** An equipment breakdown such as [calculate_total_equipment_cost] returns,
    and its installed costs. *)
Definition purchased_equipment : list (string * cost_data) :=
  [ ("reactor_R1", CostDict {[ "unit_cost" := qc 2000 1;
                               "quantity" := 1;
                               "total_cost" := qc 2000 1 ]});
    ("heat_exchanger_E1", CostNumber (qc 1000 1));
    ("pump_P1", CostDict {[ "unit_cost" := qc 500 1;
                            "quantity" := qc 2 1;
                            "total_cost" := qc 1000 1 ]});
    ("total_equipment_cost", CostNumber (qc 4000 1)) ].

Definition installed_equipment : gmap string Qc :=
  {[ "reactor_R1" := qc 7000 1;
     "heat_exchanger_E1" := qc 3000 1;
     "pump_P1" := qc 2000 1;
     "total_installed_cost" := qc 12000 1 ]}.

(** * Properties *)

(** ** The error monad *)

Section result_facts.
Context {A B : Type}.
Implicit Types (m : result A) (k : A → result B).

Lemma bind_Ok m k b : m ≫= k = Ok b ↔ ∃ a, m = Ok a ∧ k a = Ok b.
Proof.
  destruct m as [a|e]; simpl; split.
  - intros ?. by exists a.
  - by intros (? & [= <-] & ?).
  - done.
  - by intros (? & ? & _).
Qed.

Lemma fmap_Ok (f : A → B) m b : f <$> m = Ok b ↔ ∃ a, m = Ok a ∧ b = f a.
Proof.
  destruct m as [a|e]; simpl; split.
  - intros [= <-]. by exists a.
  - by intros (? & [= <-] & ->).
  - done.
  - by intros (? & ? & _).
Qed.

Lemma reraise_Ok_inv m a : reraise_ValueError m = Ok a → m = Ok a.
Proof. by destruct m. Qed.

End result_facts.

(** ** Rational arithmetic used below *)

Lemma truediv_Ok x y : y ≠ 0 → truediv x y = Ok (x / y).
Proof. intros. unfold truediv. by case_decide. Qed.

Lemma truediv_Ok_inv x y q : truediv x y = Ok q → y ≠ 0 ∧ q = x / y.
Proof. unfold truediv. case_decide; naive_solver. Qed.

Lemma Qc_of_Z_pos n : (1 ≤ n)%Z → Qc_of_Z n ≠ 0.
Proof.
  intros Hn. rewrite <-Z2Qc_inj_0. intros H%Z2Qc_inj. lia.
Qed.

Lemma Qcpower_nonzero x n : x ≠ 0 → x ^ n ≠ 0.
Proof.
  intros Hx. induction n as [|n IH]; simpl.
  - apply Q_apart_0_1.
  - intros [?|?]%Qcmult_integral; done.
Qed.

Lemma pymax_0_nonpos x : x ≤ 0 → pymax 0 x = 0.
Proof.
  intros Hx. unfold pymax. case_decide as Hlt; [|done].
  by apply Qclt_not_le in Hlt.
Qed.

Lemma Qcmult_nonpos_nonneg x y : x ≤ 0 → 0 ≤ y → x * y ≤ 0.
Proof.
  intros Hx Hy. rewrite <-(Qcmult_0_l y). by apply Qcmult_le_compat_r.
Qed.

(** ** The cash-flow series *)

Lemma foldl_snoc_fmap {A B} (f : A → B) (acc : list B) (l : list A) :
  foldl (λ acc x, acc ++ [f x]) acc l = acc ++ (f <$> l).
Proof.
  revert acc. induction l as [|x l IH]; intros acc; simpl.
  - by rewrite app_nil_r.
  - by rewrite IH, <-app_assoc.
Qed.

Lemma pyvalue_year_eq (year : nat) (n : Z) :
  Qc_of_nat year = pyvalue (PyInt n) ↔ Z.of_nat year = n.
Proof. apply Z2Qc_inj_iff. Qed.

(** C2.  For an integer [project_lifetime >= 1] the series built by
    [analyze_profitability] has [project_lifetime + 1] entries; entry 0 is
    [- capital_investment]; the entry of each year is
    [(taxable_income - max(0, taxable_income * tax_rate)) +
    annual_depreciation], and the entry of the final year has
    [salvage_value] added; a taxable income that is not positive is not
    taxed when the tax rate is not negative. *)
Theorem cash_flow_series
    (capital_investment annual_revenue annual_operating_costs : Qc)
    (project_lifetime : Z) (tax_rate salvage_value : Qc) :
  (1 ≤ project_lifetime)%Z →
  let annual_depreciation :=
    (capital_investment - salvage_value) / Qc_of_Z project_lifetime in
  let taxable_income :=
    (annual_revenue - annual_operating_costs) - annual_depreciation in
  let flow :=
    (taxable_income - pymax 0 (taxable_income * tax_rate))
    + annual_depreciation in
  ∃ cash_flows,
    build_cash_flows capital_investment annual_revenue
      annual_operating_costs (PyInt project_lifetime) tax_rate salvage_value
      = Ok cash_flows
    ∧ length cash_flows = (Z.to_nat project_lifetime + 1)%nat
    ∧ cash_flows !! 0%nat = Some (- capital_investment)
    ∧ (∀ year : nat, (1 ≤ year < Z.to_nat project_lifetime)%nat →
         cash_flows !! year = Some flow)
    ∧ cash_flows !! Z.to_nat project_lifetime = Some (flow + salvage_value)
    ∧ (0 ≤ tax_rate → taxable_income ≤ 0 →
         pymax 0 (taxable_income * tax_rate) = 0).
Proof.
  intros Hn dep ti flow.
  unfold build_cash_flows. simpl pyvalue.
  rewrite truediv_Ok by by apply Qc_of_Z_pos.
  simpl. fold dep. unfold cash_flow_body. fold ti. fold flow.
  rewrite foldl_snoc_fmap. eexists. split; [done|].
  split; [|split; [|split; [|split]]].
  - rewrite length_app, length_fmap, length_seq. simpl. lia.
  - done.
  - intros year [H1 H2].
    rewrite lookup_app_r by (simpl; lia). simpl.
    rewrite list_lookup_fmap, lookup_seq_lt by lia. simpl.
    case_decide as Heq; [|done].
    apply pyvalue_year_eq in Heq. lia.
  - rewrite lookup_app_r by (simpl; lia). simpl.
    rewrite list_lookup_fmap, lookup_seq_lt by lia. simpl.
    case_decide as Heq; [done|].
    exfalso. apply Heq, pyvalue_year_eq. lia.
  - intros Htax Hti. apply pymax_0_nonpos.
    by apply Qcmult_nonpos_nonneg.
Qed.

Lemma cash_flow_series_witness :
  ∃ cash_flows,
    build_cash_flows (qc 100 1) (qc 50 1) (qc 10 1) (PyInt 3) (qc 3 10)
      (qc 10 1) = Ok cash_flows
    ∧ length cash_flows = 4%nat
    ∧ cash_flows !! 3%nat = Some (qc 47 1).
Proof.
  destruct (cash_flow_series (qc 100 1) (qc 50 1) (qc 10 1) 3 (qc 3 10)
              (qc 10 1)) as (cfs & Hb & Hlen & _ & _ & Hlast & _); [lia|].
  exists cfs. split; [done|]. split; [done|].
  change (Z.to_nat 3) with 3%nat in Hlast.
  rewrite Hlast. apply (f_equal Some). compute_done.
Defined.

(** ** The IRR solver *)

Lemma pysum_fmap {A} (g : A → result Qc) (acc : Qc) (l : list A) :
  for_each (λ acc item, v ← item; Ok (acc + v)) acc (g <$> l)
  = for_each (λ acc x, v ← g x; Ok (acc + v)) acc l.
Proof.
  revert acc. induction l as [|x l IH]; intros acc; simpl; [done|].
  destruct (g x); simpl; auto.
Qed.

(** The NPV the solver evaluates in its loop is the one [calculate_npv]
    returns. *)
Lemma calculate_npv_irr_npv cash_flows rate :
  calculate_npv cash_flows rate = reraise_ValueError (irr_npv cash_flows rate).
Proof.
  unfold calculate_npv, irr_npv, pysum. by rewrite pysum_fmap.
Qed.

Lemma irr_loop_converged cash_flows tolerance iterations rate r :
  irr_loop cash_flows tolerance iterations rate = Ok (r, Converged) →
  ∃ v, irr_npv cash_flows r = Ok v ∧ pyabs v < tolerance.
Proof.
  revert rate. induction iterations as [|n IH]; intros rate H; simpl in H.
  - done.
  - apply bind_Ok in H as (v & Hv & H).
    apply bind_Ok in H as (d & Hd & H).
    case_decide as Hconv.
    + injection H as <-. by exists v.
    + case_decide; [done|].
      apply bind_Ok in H as (step & _ & H). by eapply IH.
Qed.

Lemma clamp_rate_ge rate : - qc 99 100 ≤ clamp_rate rate.
Proof.
  unfold clamp_rate. case_decide as Hlt; [done|]. by apply Qcnot_lt_le.
Qed.

Lemma irr_loop_clamped cash_flows tolerance iterations rate r exit :
  - qc 99 100 ≤ rate →
  irr_loop cash_flows tolerance iterations rate = Ok (r, exit) →
  - qc 99 100 ≤ r.
Proof.
  revert rate. induction iterations as [|n IH]; intros rate Hrate H;
    simpl in H.
  - by injection H as <- _.
  - apply bind_Ok in H as (v & _ & H).
    apply bind_Ok in H as (d & _ & H).
    repeat case_decide; try by injection H as <- _.
    apply bind_Ok in H as (step & _ & H).
    eapply IH; [|done]. apply clamp_rate_ge.
Qed.

(** C3.  Round trip: when the solver leaves through its convergence branch
    with the rate [r], it returns [r], and [calculate_npv] at [r] returns a
    value whose absolute value is below the tolerance. *)
Theorem irr_round_trip (cash_flows : list Qc) (max_iterations : Z)
    (tolerance r : Qc) :
  (2 ≤ length cash_flows)%nat →
  calculate_irr_exit cash_flows max_iterations tolerance = Ok (r, Converged) →
  calculate_irr cash_flows max_iterations tolerance = Ok r
  ∧ ∃ v, calculate_npv cash_flows r = Ok v ∧ pyabs v < tolerance.
Proof.
  intros Hlen H. split.
  - unfold calculate_irr. by rewrite H.
  - unfold calculate_irr_exit in H. apply reraise_Ok_inv in H.
    case_decide; [done|].
    apply irr_loop_converged in H as (v & Hv & Hlt).
    exists v. by rewrite calculate_npv_irr_npv, Hv.
Qed.

Lemma irr_round_trip_witness :
  ∃ v, calculate_npv [- qc 100 1; qc 120 1] (qc 14332723 71663616) = Ok v
       ∧ pyabs v < default_tolerance.
Proof.
  apply (irr_round_trip [- qc 100 1; qc 120 1] default_max_iterations).
  - simpl. lia.
  - compute_done.
Defined.

(** C9.  Clamp invariant: a rate returned by [calculate_irr], through
    whichever exit, is at least [-0.99], and so is not a discount rate
    [<= -1]. *)
Theorem irr_rate_clamped (cash_flows : list Qc) (max_iterations : Z)
    (tolerance r : Qc) :
  (2 ≤ length cash_flows)%nat →
  calculate_irr cash_flows max_iterations tolerance = Ok r →
  - qc 99 100 ≤ r ∧ ¬ r ≤ - 1.
Proof.
  intros _ H. unfold calculate_irr in H.
  apply fmap_Ok in H as ([r' exit] & H & ->). simpl.
  unfold calculate_irr_exit in H. apply reraise_Ok_inv in H.
  case_decide; [done|].
  apply irr_loop_clamped in H; [|compute_done].
  split; [done|]. intros Hle.
  assert (- qc 99 100 ≤ - 1) as Hbad by by etrans.
  revert Hbad. compute_done.
Qed.

Lemma irr_rate_clamped_witness :
  calculate_irr [- qc 100 1; 1] default_max_iterations default_tolerance
    = Ok (- qc 99 100)
  ∧ - qc 99 100 ≤ - qc 99 100 ∧ ¬ - qc 99 100 ≤ - 1.
Proof.
  assert (calculate_irr [- qc 100 1; 1] default_max_iterations
            default_tolerance = Ok (- qc 99 100)) as H by compute_done.
  split; [done|].
  apply (irr_rate_clamped [- qc 100 1; 1] default_max_iterations
           default_tolerance); [simpl; lia|done].
Defined.

(** ** The NPV evaluator *)


Lemma npv_body_Ok (r npv : Qc) (i : nat) (cf : Qc) :
  1 + r ≠ 0 → npv_body r npv (i, cf) = Ok (npv + cf / (1 + r) ^ i).
Proof.
  intros Hr. unfold npv_body. simpl.
  by rewrite truediv_Ok by by apply Qcpower_nonzero.
Qed.

Lemma npv_loop_sum (r : Qc) (l : list Qc) (k : nat) (acc : Qc) :
  1 + r ≠ 0 →
  for_each (npv_body r) acc (imap (λ i cf, ((k + i)%nat, cf)) l)
  = Ok (acc + foldr Qcplus 0 (imap (λ i cf, cf / (1 + r) ^ (k + i)) l)).
Proof.
  intros Hr. revert k acc. induction l as [|cf l IH]; intros k acc; simpl.
  - by rewrite Qcplus_0_r.
  - rewrite npv_body_Ok by done. simpl.
    rewrite (imap_ext _ (λ i cf, ((S k + i)%nat, cf))), IH.
    + rewrite (imap_ext (_ ∘ S) (λ i cf, cf / (1 + r) ^ (S k + i))).
      * by rewrite Qcplus_assoc.
      * intros i x _. simpl. by replace (k + S i)%nat with (S (k + i)) by lia.
    + intros i x _. simpl. by replace (k + S i)%nat with (S (k + i)) by lia.
Qed.

Lemma calculate_npv_sum (cash_flows : list Qc) (r : Qc) :
  1 + r ≠ 0 → calculate_npv cash_flows r = Ok (discounted_sum cash_flows r).
Proof.
  intros Hr. unfold calculate_npv, discounted_sum.
  change (enumerate cash_flows)
    with (imap (λ i cf, ((0 + i)%nat, cf)) cash_flows).
  rewrite npv_loop_sum by done. simpl. by rewrite Qcplus_0_l.
Qed.





(** ** The payback calculator *)

Lemma Qc_of_nat_S (n : nat) : Qc_of_nat (S n) = Qc_of_nat n + 1.
Proof.
  unfold Qc_of_nat. by rewrite Nat2Z.inj_succ, <-Z.add_1_r, Z2Qc_inj_add.
Qed.

Lemma payback_loop_crossing (initial_investment : Qc) (flows : list Qc) :
  ∀ (year : nat) (cum : Qc) (k : nat) (f : Qc),
    (1 ≤ k ≤ length flows)%nat →
    (∀ j : nat, (1 ≤ j < k)%nat →
       foldl Qcplus cum (take j flows) < initial_investment) →
    initial_investment ≤ foldl Qcplus cum (take k flows) →
    flows !! (k - 1)%nat = Some f →
    f ≠ 0 →
    payback_loop initial_investment year cum flows
    = Ok (inl (Qc_of_nat (year + k)
               - (foldl Qcplus cum (take k flows) - initial_investment) / f)).
Proof.
  induction flows as [|cf rest IH]; intros year cum k f Hk Hbelow Hreach Hf Hf0.
  - simpl in Hk. lia.
  - destruct k as [|[|k]]; [lia| |].
    + simpl in *. injection Hf as ->.
      case_decide; [|done].
      rewrite truediv_Ok by done. simpl.
      by rewrite Nat.add_1_r, Qc_of_nat_S.
    + pose proof (Hbelow 1%nat ltac:(lia)) as H1. simpl in H1.
      simpl payback_loop. case_decide as Hle.
      { by apply Qclt_not_le in H1. }
      rewrite (IH (S year) (cum + cf) (S k) f).
      * by replace (S year + S k)%nat with (year + S (S k))%nat by lia.
      * simpl in Hk. lia.
      * intros j Hj. apply (Hbelow (S j)). lia.
      * done.
      * replace (S k - 1)%nat with k by lia. by simpl in Hf.
      * done.
Qed.

Lemma cumulative_step (flows : list Qc) (k : nat) (f : Qc) :
  flows !! k = Some f → cumulative flows (S k) = cumulative flows k + f.
Proof.
  intros Hf. unfold cumulative.
  by rewrite (take_S_r _ _ _ Hf), foldl_app.
Qed.

Lemma first_recovered_flow_nonzero (initial_investment : Qc)
    (flows : list Qc) (k : nat) (f : Qc) :
  0 < initial_investment →
  first_recovered initial_investment flows k →
  flows !! (k - 1)%nat = Some f →
  f ≠ 0.
Proof.
  intros Hpos (Hk & Hbelow & Hreach) Hf ->.
  destruct k as [|k]; [lia|]. simpl in Hf. rewrite Nat.sub_0_r in Hf.
  rewrite (cumulative_step _ _ _ Hf), Qcplus_0_r in Hreach.
  destruct k as [|k].
  - unfold cumulative in Hreach. simpl in Hreach.
    by apply Qclt_not_le in Hpos.
  - pose proof (Hbelow (S k) ltac:(lia)) as Hlt.
    by apply Qclt_not_le in Hlt.
Qed.

(** C4 (as amended).  When the running cumulative sum first reaches the
    investment in year [k] and the flow [f_k] of that year is not zero, the
    result is [k - (cumulative_k - initial_investment) / f_k]; the flow is
    not zero whenever the investment is positive; [100] with [[40, 80]]
    gives [1.75] and [100] with [[50, 50, 50]] gives [2]. *)
Theorem payback_interpolation :
  (∀ (initial_investment : Qc) (annual_cash_flows : list Qc) (k : nat)
     (f_k : Qc),
     first_recovered initial_investment annual_cash_flows k →
     annual_cash_flows !! (k - 1)%nat = Some f_k →
     f_k ≠ 0 ∨ 0 < initial_investment →
     calculate_payback_period initial_investment annual_cash_flows
     = Ok (Qc_of_nat k
           - (cumulative annual_cash_flows k - initial_investment) / f_k))
  ∧ calculate_payback_period (qc 100 1) [qc 40 1; qc 80 1] = Ok (qc 175 100)
  ∧ calculate_payback_period (qc 100 1) [qc 50 1; qc 50 1; qc 50 1]
    = Ok (qc 2 1).
Proof.
  split; [|split; compute_done].
  intros inv flows k f Hrec Hf Hnz.
  assert (f ≠ 0) as Hf0.
  { destruct Hnz; [done|]. by eapply first_recovered_flow_nonzero. }
  destruct Hrec as (Hk & Hbelow & Hreach).
  unfold calculate_payback_period.
  by rewrite (payback_loop_crossing inv flows 0 0 k f).
Qed.

Lemma payback_interpolation_witness :
  calculate_payback_period (qc 100 1) [qc 40 1; qc 80 1]
  = Ok (Qc_of_nat 2
        - (cumulative [qc 40 1; qc 80 1] 2 - qc 100 1) / qc 80 1).
Proof.
  apply (proj1 payback_interpolation (qc 100 1) [qc 40 1; qc 80 1] 2%nat).
  - split; [simpl; lia|]. split; [|compute_done].
    intros j Hj. assert (j = 1%nat) as -> by lia. compute_done.
  - reflexivity.
  - left. compute_done.
Defined.

(** The claim as written covers every investment; with investment [0] and
    the single flow [0] the sum reaches the investment in year 1 and the
    interpolation divides by zero. *)
Lemma payback_counterexample :
  first_recovered 0 [0] 1
  ∧ [0 : Qc] !! 0%nat = Some 0
  ∧ calculate_payback_period 0 [0] = Raise ValueError.
Proof.
  split; [|split; compute_done].
  split; [simpl; lia|]. split; [intros j Hj; lia|compute_done].
Qed.

(** ** The Aggregator *)

(** What a successful call has computed, step by step. *)
Lemma analyze_profitability_Ok (capital_investment annual_revenue
    annual_operating_costs : Qc) (project_lifetime : pynum)
    (discount_rate tax_rate salvage_value : Qc) (r : ProfitabilityResult) :
  analyze_profitability capital_investment annual_revenue
    annual_operating_costs project_lifetime discount_rate tax_rate
    salvage_value = Ok r →
  ∃ cash_flows rate,
    build_cash_flows capital_investment annual_revenue
      annual_operating_costs project_lifetime tax_rate salvage_value
      = Ok cash_flows
    ∧ calculate_npv cash_flows discount_rate = Ok (npv r)
    ∧ calculate_irr cash_flows default_max_iterations default_tolerance
      = Ok rate
    ∧ irr r = rate * qc 100 1
    ∧ calculate_payback_period capital_investment (drop 1 cash_flows)
      = Ok (payback_period r)
    ∧ calculate_roi (annual_revenue - annual_operating_costs)
        capital_investment = Ok (roi r)
    ∧ capital_investment ≠ 0.
Proof.
  intros H. unfold analyze_profitability in H. apply reraise_Ok_inv in H.
  apply bind_Ok in H as (cfs & Hcfs & H).
  apply bind_Ok in H as (v & Hnpv & H).
  apply bind_Ok in H as (rate & Hirr & H).
  apply bind_Ok in H as (pb & Hpb & H).
  apply bind_Ok in H as (ro & Hroi & H).
  apply bind_Ok in H as (pi & Hpi & H).
  apply bind_Ok in H as (be & Hbe & H).
  injection H as <-. simpl.
  apply truediv_Ok_inv in Hpi as [Hci _].
  by exists cfs, rate.
Qed.

(** C1 (as amended).  The ['irr'] entry of a returned result is the rate the
    solver returned for the full series, multiplied by [100]: a percentage,
    not a fraction. *)
Theorem irr_entry_is_percentage (capital_investment annual_revenue
    annual_operating_costs : Qc) (project_lifetime : pynum)
    (discount_rate tax_rate salvage_value : Qc) (r : ProfitabilityResult) :
  analyze_profitability capital_investment annual_revenue
    annual_operating_costs project_lifetime discount_rate tax_rate
    salvage_value = Ok r →
  ∃ cash_flows rate,
    build_cash_flows capital_investment annual_revenue
      annual_operating_costs project_lifetime tax_rate salvage_value
      = Ok cash_flows
    ∧ calculate_irr cash_flows default_max_iterations default_tolerance
      = Ok rate
    ∧ irr r = rate * qc 100 1.
Proof.
  intros H.
  apply analyze_profitability_Ok in H as (cfs & rate & ? & _ & ? & ? & _).
  by exists cfs, rate.
Qed.

(** The project of the examples below: investment 100, one year, revenue
    110, no costs, no tax, no salvage value, discounted at 10%. *)
Lemma analyze_profitability_one_year :
  analyze_profitability (qc 100 1) (qc 110 1) 0 (PyInt 1) (qc 1 10) 0 0
  = Ok {| npv := 0; irr := qc 10 1; payback_period := qc 10 11;
          roi := qc 110 1; profitability_index := 1;
          annual_cash_flow := qc 110 1; total_revenue := qc 110 1;
          total_costs := 0; break_even_price := 0 |}.
Proof. compute_done. Qed.

Lemma irr_entry_is_percentage_witness :
  ∃ cash_flows rate,
    build_cash_flows (qc 100 1) (qc 110 1) 0 (PyInt 1) 0 0 = Ok cash_flows
    ∧ calculate_irr cash_flows default_max_iterations default_tolerance
      = Ok rate
    ∧ qc 10 1 = rate * qc 100 1.
Proof.
  exact (irr_entry_is_percentage _ _ _ _ _ _ _ _
           analyze_profitability_one_year).
Defined.

(** The claim as written fails on that project: the solver returns [0.1] and
    the entry holds [10]. *)
Lemma irr_entry_counterexample :
  ∃ r cash_flows rate,
    analyze_profitability (qc 100 1) (qc 110 1) 0 (PyInt 1) (qc 1 10) 0 0
      = Ok r
    ∧ build_cash_flows (qc 100 1) (qc 110 1) 0 (PyInt 1) 0 0 = Ok cash_flows
    ∧ calculate_irr cash_flows default_max_iterations default_tolerance
      = Ok rate
    ∧ irr r ≠ rate.
Proof.
  eexists _, [- qc 100 1; qc 110 1], (qc 1 10).
  split; [apply analyze_profitability_one_year|].
  split; [compute_done|]. split; compute_done.
Qed.

(** C5 (as amended).  A capital investment equal to zero is rejected,
    whatever the other parameters are: if no earlier step fails,
    [calculate_roi] raises on [investment == 0]. *)
Theorem zero_capital_rejected (annual_revenue annual_operating_costs : Qc)
    (project_lifetime : pynum) (discount_rate tax_rate salvage_value : Qc) :
  analyze_profitability 0 annual_revenue annual_operating_costs
    project_lifetime discount_rate tax_rate salvage_value
  = Raise ValueError.
Proof.
  unfold analyze_profitability.
  destruct (build_cash_flows _ _ _ _ _ _) as [cfs|]; [simpl|done].
  destruct (calculate_npv _ _); [simpl|done].
  destruct (calculate_irr _ _ _); [simpl|done].
  destruct (calculate_payback_period _ _); [simpl|done].
  by unfold calculate_roi.
Qed.

(** The claim as written also covers negative investments, which the code
    does not reject: with investment [-100], one year, no revenue and costs
    of [110] a result is returned. *)
Lemma negative_capital_counterexample :
  - qc 100 1 ≤ 0
  ∧ analyze_profitability (- qc 100 1) 0 (qc 110 1) (PyInt 1) (qc 1 10)
      (qc 3 10) 0
    = Ok {| npv := 0; irr := qc 10 1; payback_period := qc 10 11;
            roi := qc 110 1; profitability_index := 1;
            annual_cash_flow := - qc 110 1; total_revenue := 0;
            total_costs := qc 110 1; break_even_price := 0 |}.
Proof. split; compute_done. Qed.

(** ** The sensitivity driver *)

Section mapM_result.
Context {A B : Type} (f : A → result B).

Lemma mapM_result_app (l1 l2 : list A) :
  mapM f (l1 ++ l2) = r1 ← mapM f l1; r2 ← mapM f l2; Ok (r1 ++ r2).
Proof.
  induction l1 as [|x l1 IH]; simpl.
  - by destruct (mapM f l2).
  - destruct (f x); simpl; [|done]. rewrite IH.
    destruct (mapM f l1); simpl; [|done].
    by destruct (mapM f l2).
Qed.

End mapM_result.

Lemma perturbed_row_lookup (base : gmap string pynum) (p : string)
    (bv : pynum) (c : Qc) :
  base !! p = Some bv →
  perturbed_row base (p, c)
  = sensitivity_row p c <$> call_analyze (<[p := perturbed bv c]> base).
Proof. intros Hbv. unfold perturbed_row. simpl. by rewrite Hbv. Qed.

Lemma sensitivity_inner_loop (base : gmap string pynum) (p : string)
    (bv : pynum) (changes : list Qc) (acc : list SensitivityRow) :
  base !! p = Some bv →
  for_each (sensitivity_body base p bv) acc changes
  = (acc ++.) <$> mapM (perturbed_row base) (pair p <$> changes).
Proof.
  intros Hbv. revert acc.
  induction changes as [|c changes IH]; intros acc; simpl.
  - by rewrite app_nil_r.
  - rewrite (perturbed_row_lookup base p bv c Hbv). unfold sensitivity_body.
    destruct (call_analyze _) as [res|e]; simpl; [|done].
    rewrite IH. destruct (mapM _ _); simpl; [|done].
    by rewrite <-app_assoc.
Qed.

Lemma sensitivity_outer_loop (base : gmap string pynum)
    (ranges : list (string * list Qc)) (acc : list SensitivityRow) :
  for_each
    (λ sensitivity_results (item : string * list Qc),
       match base !! item.1 with
       | None => Ok sensitivity_results
       | Some base_value =>
           for_each (sensitivity_body base item.1 base_value)
                    sensitivity_results item.2
       end) acc ranges
  = (acc ++.) <$> mapM (perturbed_row base) (sensitivity_pairs base ranges).
Proof.
  revert acc. induction ranges as [|[p changes] ranges IH]; intros acc.
  - simpl. by rewrite app_nil_r.
  - change (sensitivity_pairs base ((p, changes) :: ranges))
      with ((if decide (is_Some (base !! p))
             then pair p <$> changes else [])
            ++ sensitivity_pairs base ranges).
    rewrite mapM_result_app. simpl.
    destruct (base !! p) as [bv|] eqn:Hbv.
    + rewrite decide_True by by eexists.
      rewrite (sensitivity_inner_loop base p bv changes acc Hbv).
      destruct (mapM _ (pair p <$> changes)); simpl; [|done].
      rewrite IH. destruct (mapM _ _); simpl; [|done].
      by rewrite app_assoc.
    + rewrite decide_False by by intros [? ?].
      simpl. rewrite IH. by destruct (mapM _ _).
Qed.

Lemma sensitivity_analysis_mapM (base : gmap string pynum)
    (ranges : list (string * list Qc)) :
  sensitivity_analysis base ranges
  = mapM (perturbed_row base) (sensitivity_pairs base ranges).
Proof.
  unfold sensitivity_analysis. rewrite sensitivity_outer_loop.
  by destruct (mapM _ _).
Qed.


(** A float handed to [range] is a [TypeError], which the [except] clause
    turns into a [ValueError]. *)
Lemma analyze_profitability_float_lifetime (capital_investment
    annual_revenue annual_operating_costs lifetime discount_rate tax_rate
    salvage_value : Qc) :
  analyze_profitability capital_investment annual_revenue
    annual_operating_costs (PyFloat lifetime) discount_rate tax_rate
    salvage_value = Raise ValueError.
Proof.
  unfold analyze_profitability, build_cash_flows.
  by destruct (truediv _ _).
Qed.






(** ** The Monte-Carlo driver *)



Section monte_carlo_facts.
Context `{RandomState rng}.





End monte_carlo_facts.


(** ** The analyzer object *)

Lemma extending_bind {A B} (m : Analyzer.M A) (k : A → Analyzer.M B) :
  extending m → (∀ a, extending (k a)) → extending (Analyzer.bind m k).
Proof.
  intros Hm Hk σ. unfold Analyzer.bind.
  specialize (Hm σ). destruct (m σ) as [[a|e] σ']; simpl in *; [|done].
  etrans; [exact Hm|]. apply Hk.
Qed.

Lemma extending_ret {A} (a : A) : extending (Analyzer.ret a).
Proof. by intros σ. Qed.

Lemma extending_for_each {A B} (body : B → A → Analyzer.M B) (l : list A) :
  (∀ acc x, extending (body acc x)) →
  ∀ acc, extending (Analyzer.for_each body acc l).
Proof.
  intros Hbody. induction l as [|x l IH]; intros acc; simpl.
  - apply extending_ret.
  - by apply extending_bind.
Qed.

Lemma extending_store_results (computed : result ProfitabilityResult) :
  extending (Analyzer.store_results computed).
Proof.
  intros σ. unfold Analyzer.store_results, Analyzer.bind, Analyzer.lift.
  destruct computed; simpl; [|done]. by apply prefix_app_r.
Qed.

Lemma extending_read_dict (d : Analyzer.loc) :
  extending (Analyzer.read_dict d).
Proof.
  intros σ. unfold Analyzer.read_dict. by repeat case_match.
Qed.

Lemma extending_call_read (kwargs : gmap string pynum) :
  extending (Analyzer.bind (Analyzer.call_analyze kwargs) Analyzer.read_dict).
Proof.
  apply extending_bind;
    [apply extending_store_results|apply extending_read_dict].
Qed.

Lemma extending_unchanged {A} (m : Analyzer.M A) (σ : Analyzer.state) :
  extending m → unchanged σ (m σ).2.
Proof. intros Hm d obj Hd. by eapply prefix_lookup_Some. Qed.

(** What [store_results] does to the store. *)
Lemma store_results_Ok (r : ProfitabilityResult) (σ : Analyzer.state) :
  Analyzer.store_results (Ok r) σ
  = (Ok (length (Analyzer.heap σ)),
     {| Analyzer.heap := Analyzer.heap σ ++ [Analyzer.ResultDict r];
        Analyzer.results := length (Analyzer.heap σ) |}).
Proof. done. Qed.

Lemma store_results_Raise (e : pyerr) (σ : Analyzer.state) :
  Analyzer.store_results (Raise e) σ = (Raise e, σ).
Proof. done. Qed.

(** Reading the dictionary a call has just returned gives the computed
    result. *)
Lemma call_read_value (kwargs : gmap string pynum) (σ : Analyzer.state) :
  (Analyzer.bind (Analyzer.call_analyze kwargs) Analyzer.read_dict σ).1
  = call_analyze kwargs.
Proof.
  unfold Analyzer.call_analyze, Analyzer.bind.
  destruct (call_analyze kwargs) as [r|e].
  - rewrite store_results_Ok. unfold Analyzer.read_dict. simpl.
    by rewrite list_lookup_middle.
  - by rewrite store_results_Raise.
Qed.

(** A loop in the store computes what the loop over values computes, when
    its body does. *)
Lemma for_each_value {A B} (body_st : B → A → Analyzer.M B)
    (body : B → A → result B) (l : list A) :
  (∀ acc x σ, (body_st acc x σ).1 = body acc x) →
  ∀ acc σ, (Analyzer.for_each body_st acc l σ).1 = for_each body acc l.
Proof.
  intros Hbody. induction l as [|x l IH]; intros acc σ; simpl; [done|].
  unfold Analyzer.bind. specialize (Hbody acc x σ).
  destruct (body_st acc x σ) as [[acc'|e] σ']; simpl in Hbody;
    rewrite <-Hbody; simpl; [apply IH|done].
Qed.

Lemma sensitivity_body_value (base : gmap string pynum) (p : string)
    (bv : pynum) (acc : list SensitivityRow) (c : Qc) (σ : Analyzer.state) :
  (Analyzer.sensitivity_body base p bv acc c σ).1
  = sensitivity_body base p bv acc c.
Proof.
  unfold Analyzer.sensitivity_body, sensitivity_body.
  pose proof (call_read_value (<[p := perturbed bv c]> base) σ) as Hv.
  rewrite <-Hv. unfold Analyzer.bind.
  destruct (Analyzer.call_analyze _ σ) as [[d|e] σ']; simpl; [|done].
  by destruct (Analyzer.read_dict d σ') as [[r|e] σ''].
Qed.

Lemma extending_sensitivity_body (base : gmap string pynum) (p : string)
    (bv : pynum) (acc : list SensitivityRow) (c : Qc) :
  extending (Analyzer.sensitivity_body base p bv acc c).
Proof.
  apply extending_bind; [apply extending_store_results|].
  intros d. apply extending_bind; [apply extending_read_dict|].
  intros r. apply extending_ret.
Qed.

Lemma sensitivity_analysis_value (base : gmap string pynum)
    (ranges : list (string * list Qc)) (σ : Analyzer.state) :
  (Analyzer.sensitivity_analysis base ranges σ).1
  = sensitivity_analysis base ranges.
Proof.
  apply for_each_value. intros acc [p changes] σ'. simpl.
  destruct (base !! p) as [bv|]; [|done].
  apply for_each_value. apply sensitivity_body_value.
Qed.

Lemma extending_sensitivity_analysis (base : gmap string pynum)
    (ranges : list (string * list Qc)) :
  extending (Analyzer.sensitivity_analysis base ranges).
Proof.
  apply extending_for_each. intros acc [p changes]. simpl.
  destruct (base !! p) as [bv|]; [|apply extending_ret].
  apply extending_for_each. apply extending_sensitivity_body.
Qed.

Section analyzer_monte_carlo.
Context `{RandomState rng}.

Lemma simulation_body_value (parameters : list (string * distribution))
    (acc : list SimulationRow * rng) (σ : Analyzer.state) :
  (Analyzer.simulation_body parameters acc σ).1
  = simulation_body parameters acc
  ∧ Analyzer.heap σ
    `prefix_of` Analyzer.heap (Analyzer.simulation_body parameters acc σ).2.
Proof.
  unfold Analyzer.simulation_body, simulation_body.
  destruct acc as [results g].
  destruct (sample_parameters parameters g) as [sim_params g'].
  pose proof (call_read_value sim_params σ) as Hv.
  pose proof (extending_call_read sim_params σ) as Hext.
  destruct (Analyzer.bind _ _ σ) as [[r|e] σ']; simpl in *;
    by rewrite <-Hv.
Qed.

Lemma monte_carlo_analysis_value (parameters : list (string * distribution))
    (n_simulations : Z) (g : rng) (σ : Analyzer.state) :
  (Analyzer.monte_carlo_analysis parameters n_simulations g σ).1
  = monte_carlo_analysis parameters n_simulations g
  ∧ Analyzer.heap σ
    `prefix_of`
    Analyzer.heap
      (Analyzer.monte_carlo_analysis parameters n_simulations g σ).2.
Proof.
  unfold Analyzer.monte_carlo_analysis, monte_carlo_analysis.
  induction (Z.to_nat n_simulations) as [|n [IHv IHext]]; simpl; [done|].
  destruct (simulation_body_value parameters
              (Nat.iter n (λ st, Analyzer.simulation_body parameters st.1 st.2)
                 ([], g, σ)).1
              (Nat.iter n (λ st, Analyzer.simulation_body parameters st.1 st.2)
                 ([], g, σ)).2) as [Hv Hext].
  split.
  - by rewrite Hv, IHv.
  - by etrans.
Qed.
End analyzer_monte_carlo.

(** C10 (as amended).  A successful [analyze_profitability] allocates a new
    dictionary holding the computed metrics, binds [self.results] to it and
    returns it, so the analyzer keeps a reference to its latest result, an
    alias of the value returned; a failed one leaves the analyzer as it was.
    No method reads [self.results] before re-binding it: the values returned
    by [analyze_profitability], [sensitivity_analysis] and
    [monte_carlo_analysis] are those of the computations on their arguments
    alone, whatever the store, and every dictionary that existed before a
    call is unchanged after it. *)
Theorem analyzer_lifecycle :
  (∀ (capital_investment annual_revenue annual_operating_costs : Qc)
     (project_lifetime : pynum) (discount_rate tax_rate salvage_value : Qc)
     (σ : Analyzer.state),
     match Analyzer.analyze_profitability capital_investment annual_revenue
             annual_operating_costs project_lifetime discount_rate tax_rate
             salvage_value σ with
     | (Ok d, σ') =>
         ∃ r, analyze_profitability capital_investment annual_revenue
                annual_operating_costs project_lifetime discount_rate
                tax_rate salvage_value = Ok r
              ∧ Analyzer.heap σ !! d = None
              ∧ Analyzer.heap σ' !! d = Some (Analyzer.ResultDict r)
              ∧ Analyzer.results σ' = d
              ∧ unchanged σ σ'
     | (Raise e, σ') =>
         analyze_profitability capital_investment annual_revenue
           annual_operating_costs project_lifetime discount_rate tax_rate
           salvage_value = Raise e
         ∧ σ' = σ
     end)
  ∧ (∀ (base_parameters : gmap string pynum)
       (sensitivity_ranges : list (string * list Qc)) (σ : Analyzer.state),
       (Analyzer.sensitivity_analysis base_parameters sensitivity_ranges σ).1
       = sensitivity_analysis base_parameters sensitivity_ranges
       ∧ unchanged σ
           (Analyzer.sensitivity_analysis base_parameters
              sensitivity_ranges σ).2)
  ∧ (∀ (rng : Type) (numpy : RandomState rng)
       (parameters : list (string * distribution)) (n_simulations : Z)
       (g : rng) (σ : Analyzer.state),
       (Analyzer.monte_carlo_analysis parameters n_simulations g σ).1
       = monte_carlo_analysis parameters n_simulations g
       ∧ unchanged σ
           (Analyzer.monte_carlo_analysis parameters n_simulations g σ).2).
Proof.
  split; [|split].
  - intros ci rev oc pl dr tax sv σ. unfold Analyzer.analyze_profitability.
    destruct (analyze_profitability ci rev oc pl dr tax sv) as [r|e].
    + rewrite store_results_Ok. exists r. simpl.
      split; [done|]. split; [by apply lookup_ge_None_2|].
      split; [by apply list_lookup_middle|]. split; [done|].
      intros d obj Hd. by apply lookup_app_l_Some.
    + by rewrite store_results_Raise.
  - intros base ranges σ. split; [apply sensitivity_analysis_value|].
    apply extending_unchanged, extending_sensitivity_analysis.
  - intros rng numpy parameters n g σ.
    destruct (monte_carlo_analysis_value parameters n g σ) as [Hv Hext].
    split; [done|]. intros d obj Hd. by eapply prefix_lookup_Some.
Qed.

(** The claim as written says that no state is retained across calls; after
    one successful analysis on a new analyzer the attribute [self.results]
    refers to the dictionary that was returned, and the analyzer is not in
    its initial state. *)
Lemma analyzer_state_counterexample :
  ∃ (d : Analyzer.loc) (σ' : Analyzer.state),
    Analyzer.analyze_profitability (qc 100 1) (qc 110 1) 0 (PyInt 1)
      (qc 1 10) 0 0 (Analyzer.init []) = (Ok d, σ')
    ∧ Analyzer.results σ' = d
    ∧ Analyzer.results σ' ≠ Analyzer.results (Analyzer.init [])
    ∧ σ' ≠ Analyzer.init [].
Proof.
  unfold Analyzer.analyze_profitability.
  rewrite analyze_profitability_one_year, store_results_Ok.
  eexists _, _. split; [done|]. simpl.
  split; [done|]. split; [done|].
  intros Heq. by apply (f_equal Analyzer.results) in Heq.
Qed.

(** * Further properties of the engine *)

(** Turns a goal of linear arithmetic over [Qc] into one over [Q]. *)
Ltac qc_to_Q :=
  unfold Qcle, Qclt, Qcminus, Qcdiv in *; simpl in *;
  repeat match goal with
  | H : context [Qred _] |- _ => rewrite !Qred_correct in H
  | |- context [Qred _] => rewrite !Qred_correct
  end.

Ltac qc_lra := qc_to_Q; lra.

(** ** The IRR solver: failures and exits *)









Lemma irr_loop_stalled cash_flows tolerance iterations rate r :
  irr_loop cash_flows tolerance iterations rate = Ok (r, Stalled) →
  ∃ v d, irr_npv cash_flows r = Ok v ∧ irr_dnpv cash_flows r = Ok d
         ∧ ¬ pyabs v < tolerance ∧ pyabs d < tolerance.
Proof.
  revert rate. induction iterations as [|n IH]; intros rate H; simpl in H.
  - done.
  - apply bind_Ok in H as (v & Hv & H).
    apply bind_Ok in H as (d & Hd & H).
    case_decide as Hconv; [done|].
    case_decide as Hstall.
    + injection H as <-. by exists v, d.
    + apply bind_Ok in H as (step & _ & H). by eapply IH.
Qed.

(** X2.  When the solver leaves its loop through the [break] of a stalled
    derivative, the rate it returns is not a root within the tolerance:
    [calculate_npv] at that rate returns a value whose absolute value is at
    least the tolerance. *)
Theorem irr_stalled_not_converged (cash_flows : list Qc) (max_iterations : Z)
    (tolerance r : Qc) :
  calculate_irr_exit cash_flows max_iterations tolerance = Ok (r, Stalled) →
  calculate_irr cash_flows max_iterations tolerance = Ok r
  ∧ ∃ v, calculate_npv cash_flows r = Ok v ∧ tolerance ≤ pyabs v.
Proof.
  intros H. split.
  - unfold calculate_irr. by rewrite H.
  - unfold calculate_irr_exit in H. apply reraise_Ok_inv in H.
    case_decide; [done|].
    apply irr_loop_stalled in H as (v & d & Hv & _ & Hnot & _).
    exists v. rewrite calculate_npv_irr_npv, Hv. split; [done|].
    by apply Qcnot_lt_le.
Qed.

Lemma irr_stalled_not_converged_witness :
  ∃ v, calculate_npv [qc 100 1; qc 110 1] (qc 144175 2) = Ok v
       ∧ default_tolerance ≤ pyabs v.
Proof.
  apply (irr_stalled_not_converged [qc 100 1; qc 110 1]
           default_max_iterations).
  compute_done.
Defined.

(** ** The payback calculator: failures, extrapolation, bounds *)

Lemma payback_loop_none (initial_investment : Qc) (flows : list Qc) :
  ∀ (year : nat) (cum : Qc),
    (∀ k : nat, (1 ≤ k ≤ length flows)%nat →
       foldl Qcplus cum (take k flows) < initial_investment) →
    payback_loop initial_investment year cum flows
    = Ok (inr (foldl Qcplus cum flows)).
Proof.
  induction flows as [|f rest IH]; intros year cum Hbelow; simpl; [done|].
  pose proof (Hbelow 1%nat ltac:(simpl; lia)) as H1. simpl in H1.
  case_decide as Hle; [by apply Qclt_not_le in H1|].
  apply IH. intros k Hk. apply (Hbelow (S k)). simpl. lia.
Qed.

Lemma payback_loop_below (initial_investment : Qc) (flows : list Qc) :
  ∀ (year : nat) (cum : Qc),
    cum < initial_investment →
    (∃ v, payback_loop initial_investment year cum flows = Ok (inl v))
    ∨ (payback_loop initial_investment year cum flows
       = Ok (inr (foldl Qcplus cum flows))
       ∧ ∀ k : nat, (k ≤ length flows)%nat →
           foldl Qcplus cum (take k flows) < initial_investment).
Proof.
  induction flows as [|f rest IH]; intros year cum Hcum; simpl.
  - right. split; [done|]. intros k _. by rewrite take_nil.
  - case_decide as Hle.
    + left. rewrite truediv_Ok; [by eexists|].
      intros ->. qc_lra.
    + apply Qcnot_le_lt in Hle.
      destruct (IH (S year) (cum + f) Hle) as [Hl|[Hr Hb]]; [by left|].
      right. split; [done|]. intros [|k] Hk; simpl; [done|].
      apply Hb. simpl in Hk. lia.
Qed.

(** X3.  [calculate_payback_period] raises in exactly three situations: the
    list of flows is empty; the investment is not positive and the first
    flow is zero; or the investment is never recovered and the last flow is
    zero. *)
Theorem payback_raises_iff (initial_investment : Qc)
    (annual_cash_flows : list Qc) :
  calculate_payback_period initial_investment annual_cash_flows
  = Raise ValueError
  ↔ annual_cash_flows = []
    ∨ (initial_investment ≤ 0 ∧ annual_cash_flows !! 0%nat = Some 0)
    ∨ ((∀ k : nat, (1 ≤ k ≤ length annual_cash_flows)%nat →
          cumulative annual_cash_flows k < initial_investment)
       ∧ list.last annual_cash_flows = Some 0).
Proof.
  unfold calculate_payback_period, cumulative.
  destruct annual_cash_flows as [|f rest]; [by split; [left|]|].
  split.
  - intros H. right. simpl in H. rewrite Qcplus_0_l in H.
    case_decide as Hle.
    + left. unfold truediv in H. case_decide as Hf; [|done].
      subst. split; [|done]. qc_lra.
    + right. apply Qcnot_le_lt in Hle.
      destruct (payback_loop_below initial_investment rest 1 f Hle)
        as [[v Hv]|[Hr Hb]].
      * by rewrite Hv in H.
      * rewrite Hr in H. simpl in H. unfold last_item in H.
        destruct (list.last (f :: rest)) as [l|] eqn:Hlast;
          [|by rewrite last_cons in Hlast; destruct (list.last rest)].
        simpl in H. unfold truediv in H. case_decide as Hl; [|done].
        subst. split; [|done].
        intros [|k] Hk; [lia|]. simpl. rewrite Qcplus_0_l.
        apply Hb. simpl in Hk. lia.
  - intros [?|[[Hinv Hf]|[Hb Hlast]]]; [done| |].
    + simpl in Hf. injection Hf as ->. simpl. rewrite Qcplus_0_l.
      by rewrite decide_True by done.
    + rewrite (payback_loop_none _ _ _ _ Hb). simpl.
      unfold last_item. by rewrite Hlast.
Qed.

(** X4.  When the investment is not recovered within the series and the
    last flow is not zero, the result is the extrapolation
    [len + (initial_investment - total) / last_flow]; it lies beyond the
    length of the series when the last flow is positive. *)
Theorem payback_extrapolation (initial_investment : Qc)
    (annual_cash_flows : list Qc) (last_flow : Qc) :
  (∀ k : nat, (1 ≤ k ≤ length annual_cash_flows)%nat →
     cumulative annual_cash_flows k < initial_investment) →
  list.last annual_cash_flows = Some last_flow →
  last_flow ≠ 0 →
  let years :=
    Qc_of_nat (length annual_cash_flows)
    + (initial_investment
       - cumulative annual_cash_flows (length annual_cash_flows))
      / last_flow in
  calculate_payback_period initial_investment annual_cash_flows = Ok years
  ∧ (0 < last_flow → Qc_of_nat (length annual_cash_flows) < years).
Proof.
  intros Hb Hlast Hnz years. split.
  - unfold calculate_payback_period.
    rewrite (payback_loop_none _ _ _ _ Hb). simpl.
    unfold last_item. rewrite Hlast. simpl.
    rewrite truediv_Ok by done. simpl.
    unfold years, cumulative. by rewrite firstn_all.
  - intros Hpos. unfold years.
    assert (0 < length annual_cash_flows)%nat as Hlen.
    { destruct annual_cash_flows; [done|simpl; lia]. }
    pose proof (Hb (length annual_cash_flows) ltac:(lia)) as Htotal.
    assert (0 < (initial_investment
                 - cumulative annual_cash_flows (length annual_cash_flows))
                / last_flow) as Hextra.
    { apply Qcmult_pos_pos; [qc_lra|by apply Qcinv_pos]. }
    revert Hextra. generalize ((initial_investment
      - cumulative annual_cash_flows (length annual_cash_flows)) / last_flow).
    intros extra Hextra. qc_lra.
Qed.

Lemma payback_extrapolation_witness :
  calculate_payback_period (qc 100 1) [qc 30 1; qc 20 1]
  = Ok (Qc_of_nat 2 + (qc 100 1 - cumulative [qc 30 1; qc 20 1] 2) / qc 20 1).
Proof.
  apply (payback_extrapolation (qc 100 1) [qc 30 1; qc 20 1] (qc 20 1)).
  - intros k Hk. simpl in Hk.
    assert (k = 1%nat ∨ k = 2%nat) as [-> | ->] by lia; compute_done.
  - reflexivity.
  - compute_done.
Defined.

Lemma payback_loop_constant (initial_investment f : Qc) :
  f ≠ 0 →
  ∀ (n year : nat),
    Qc_of_nat year * f < initial_investment →
    payback_loop initial_investment year (Qc_of_nat year * f) (replicate n f)
    = Ok (inl (initial_investment / f))
    ∨ (payback_loop initial_investment year (Qc_of_nat year * f)
         (replicate n f)
       = Ok (inr (Qc_of_nat (year + n) * f))
       ∧ Qc_of_nat (year + n) * f < initial_investment).
Proof.
  intros Hf. induction n as [|n IH]; intros year Hyear; simpl.
  - right. by rewrite Nat.add_0_r.
  - assert (Qc_of_nat year * f + f = Qc_of_nat (S year) * f) as Hnext.
    { rewrite Qc_of_nat_S. ring. }
    case_decide as Hle.
    + left. rewrite truediv_Ok by done. simpl. do 2 f_equal. by field.
    + apply Qcnot_le_lt in Hle. rewrite Hnext in *.
      replace (year + S n)%nat with (S year + n)%nat by lia.
      by apply IH.
Qed.

Lemma last_replicate_S {A} (n : nat) (x : A) :
  list.last (replicate (S n) x) = Some x.
Proof.
  induction n as [|n IH]; [done|].
  by rewrite <-IH.
Qed.

(** X5.  For a positive investment and a series of [n >= 1] equal positive
    flows [f] the payback period is [initial_investment / f], whether the
    investment is recovered within the series or extrapolated beyond it. *)
Theorem payback_constant_flow (initial_investment f : Qc) (n : nat) :
  0 < initial_investment → 0 < f → (1 ≤ n)%nat →
  calculate_payback_period initial_investment (replicate n f)
  = Ok (initial_investment / f).
Proof.
  intros Hinv Hf Hn.
  assert (f ≠ 0) as Hf0 by (intros ->; by apply Qclt_not_eq in Hf).
  assert ((0 : Qc) = Qc_of_nat 0 * f) as H0.
  { unfold Qc_of_nat. change (Z.of_nat 0) with 0%Z.
    rewrite Z2Qc_inj_0. ring. }
  unfold calculate_payback_period. rewrite H0 at 1.
  destruct (payback_loop_constant initial_investment f Hf0 n 0)
    as [->|[-> _]]; [by rewrite <-H0|done|].
  simpl. unfold last_item.
  destruct n as [|n]; [lia|]. rewrite last_replicate_S.
  simpl. rewrite truediv_Ok by done. simpl.
  rewrite length_replicate. f_equal. by field.
Qed.

Lemma payback_constant_flow_witness :
  calculate_payback_period (qc 100 1) (replicate 3 (qc 40 1))
  = Ok (qc 100 1 / qc 40 1)
  ∧ calculate_payback_period (qc 100 1) (replicate 2 (qc 40 1))
    = Ok (qc 100 1 / qc 40 1).
Proof.
  split; apply payback_constant_flow; try lia; compute_done.
Defined.



(** ** The NPV evaluator: zero rate, scaling, monotonicity *)

Lemma Qcpower_pos_lt (a : Qc) (n : nat) : 0 < a → 0 < a ^ n.
Proof.
  intros Ha. induction n as [|n IH]; simpl; [compute_done|].
  by apply Qcmult_pos_pos.
Qed.






Lemma discounted_sum_zero_rate (l : list Qc) (k : nat) :
  foldr Qcplus 0 (imap (λ i cf, cf / (1 + 0) ^ (k + i)) l)
  = foldr Qcplus 0 l.
Proof.
  revert k. induction l as [|cf l IH]; intros k; simpl; [done|].
  rewrite Qcplus_0_r, Qcpower_1.
  rewrite (imap_ext (_ ∘ S) (λ i cf, cf / (1 + 0) ^ (S k + i))).
  - rewrite IH. f_equal. by field.
  - intros i x _. simpl. by replace (k + S i)%nat with (S (k + i)) by lia.
Qed.

(** X8.  At a discount rate of zero the NPV is the plain sum of the cash
    flows. *)
Theorem npv_zero_rate (cash_flows : list Qc) :
  calculate_npv cash_flows 0 = Ok (foldr Qcplus 0 cash_flows).
Proof.
  rewrite calculate_npv_sum by compute_done. f_equal.
  apply (discounted_sum_zero_rate cash_flows 0).
Qed.

Lemma npv_body_scale (c r acc : Qc) (i : nat) (cf : Qc) :
  npv_body r (c * acc) (i, c * cf) = Qcmult c <$> npv_body r acc (i, cf).
Proof.
  unfold npv_body, truediv. simpl. case_decide; [done|]. simpl.
  f_equal. unfold Qcdiv. ring.
Qed.

Lemma npv_loop_scale (c r : Qc) (l : list (nat * Qc)) (acc : Qc) :
  for_each (npv_body r) (c * acc) (prod_map id (Qcmult c) <$> l)
  = Qcmult c <$> for_each (npv_body r) acc l.
Proof.
  revert acc. induction l as [|[i cf] l IH]; intros acc; csimpl; [done|].
  change (prod_map id (Qcmult c) (i, cf)) with (i, c * cf).
  rewrite npv_body_scale.
  destruct (npv_body r acc (i, cf)); simpl; [apply IH|done].
Qed.

Lemma enumerate_fmap {A} (g : A → A) (l : list A) (f : nat → nat) :
  imap (λ i x, (f i, x)) (g <$> l)
  = prod_map id g <$> imap (λ i x, (f i, x)) l.
Proof.
  revert f. induction l as [|x l IH]; intros f; csimpl; [done|].
  f_equal. exact (IH (f ∘ S)).
Qed.

(** X9.  NPV is homogeneous: multiplying every cash flow by [c] multiplies
    the NPV by [c], and the scaled series fails exactly when the original
    one does. *)
Theorem npv_scaling (c : Qc) (cash_flows : list Qc) (discount_rate : Qc) :
  calculate_npv (Qcmult c <$> cash_flows) discount_rate
  = Qcmult c <$> calculate_npv cash_flows discount_rate.
Proof.
  unfold calculate_npv, enumerate.
  rewrite <-(Qcmult_0_r c) at 1.
  replace (imap pair (Qcmult c <$> cash_flows))
    with (prod_map id (Qcmult c) <$> imap pair cash_flows).
  - rewrite npv_loop_scale. by destruct (for_each _ _ _).
  - symmetry. apply (enumerate_fmap (Qcmult c) cash_flows id).
Qed.

(** ** The Aggregator: rejected lifetimes, yearly flows, derived metrics *)

(** X10.  In [calculate_annual_cash_flow] the depreciation cancels: the
    result is [revenue - operating_costs - taxes], whatever the
    depreciation. *)
Theorem annual_cash_flow_ignores_depreciation
    (revenue operating_costs taxes depreciation : Qc) :
  calculate_annual_cash_flow revenue operating_costs taxes depreciation
  = revenue - operating_costs - taxes
  ∧ calculate_annual_cash_flow revenue operating_costs taxes depreciation
    = calculate_annual_cash_flow revenue operating_costs taxes 0.
Proof. unfold calculate_annual_cash_flow. split; ring. Qed.

(** X11.  A project lifetime that is a float, or an integer that is not
    positive, is rejected with [ValueError], whatever the other
    parameters. *)
Theorem lifetime_rejected (capital_investment annual_revenue
    annual_operating_costs : Qc) (project_lifetime : pynum)
    (discount_rate tax_rate salvage_value : Qc) :
  (∀ n : Z, project_lifetime = PyInt n → (n ≤ 0)%Z) →
  analyze_profitability capital_investment annual_revenue
    annual_operating_costs project_lifetime discount_rate tax_rate
    salvage_value = Raise ValueError.
Proof.
  intros Hn. destruct project_lifetime as [n|q];
    [|apply analyze_profitability_float_lifetime].
  specialize (Hn n eq_refl).
  unfold analyze_profitability, build_cash_flows. simpl.
  destruct (truediv _ (Qc_of_Z n)) as [dep|e]; [simpl|done].
  by replace (Z.to_nat n) with 0%nat by lia.
Qed.

Lemma lifetime_rejected_witness :
  analyze_profitability (qc 100 1) (qc 110 1) 0 (PyInt 0) (qc 1 10) 0 0
  = Raise ValueError
  ∧ analyze_profitability (qc 100 1) (qc 110 1) 0 (PyInt (-3)) (qc 1 10) 0 0
    = Raise ValueError.
Proof.
  split; apply lifetime_rejected; intros n [= <-]; lia.
Defined.

Lemma build_cash_flows_int (capital_investment annual_revenue
    annual_operating_costs : Qc) (n : Z) (tax_rate salvage_value : Qc) :
  (1 ≤ n)%Z →
  build_cash_flows capital_investment annual_revenue annual_operating_costs
    (PyInt n) tax_rate salvage_value
  = Ok ([- capital_investment]
        ++ (annual_flow_of_year annual_revenue annual_operating_costs
              tax_rate salvage_value
              ((capital_investment - salvage_value) / Qc_of_Z n) (PyInt n)
            <$> seq 1 (Z.to_nat n))).
Proof.
  intros Hn. unfold build_cash_flows. simpl pyvalue.
  rewrite truediv_Ok by by apply Qc_of_Z_pos.
  simpl. f_equal.
  exact (foldl_snoc_fmap
           (annual_flow_of_year annual_revenue annual_operating_costs
              tax_rate salvage_value
              ((capital_investment - salvage_value) / Qc_of_Z n) (PyInt n))
           [- capital_investment] (seq 1 (Z.to_nat n))).
Qed.

Lemma analyze_profitability_fields (capital_investment annual_revenue
    annual_operating_costs : Qc) (project_lifetime : pynum)
    (discount_rate tax_rate salvage_value : Qc) (r : ProfitabilityResult) :
  analyze_profitability capital_investment annual_revenue
    annual_operating_costs project_lifetime discount_rate tax_rate
    salvage_value = Ok r →
  ∃ cash_flows,
    build_cash_flows capital_investment annual_revenue
      annual_operating_costs project_lifetime tax_rate salvage_value
      = Ok cash_flows
    ∧ calculate_npv cash_flows discount_rate = Ok (npv r)
    ∧ annual_cash_flow r = first_year_flow cash_flows
    ∧ profitability_index r
      = (npv r + capital_investment) / capital_investment
    ∧ roi r
      = (annual_revenue - annual_operating_costs) / capital_investment
        * qc 100 1
    ∧ total_revenue r = annual_revenue * pyvalue project_lifetime
    ∧ total_costs r = annual_operating_costs * pyvalue project_lifetime
    ∧ capital_investment ≠ 0.
Proof.
  intros H. unfold analyze_profitability in H. apply reraise_Ok_inv in H.
  apply bind_Ok in H as (cfs & Hcfs & H).
  apply bind_Ok in H as (v & Hnpv & H).
  apply bind_Ok in H as (rate & Hirr & H).
  apply bind_Ok in H as (pb & Hpb & H).
  apply bind_Ok in H as (ro & Hroi & H).
  apply bind_Ok in H as (pi & Hpi & H).
  apply bind_Ok in H as (be & Hbe & H).
  injection H as <-. simpl.
  apply truediv_Ok_inv in Hpi as [Hci ->].
  unfold calculate_roi in Hroi. apply reraise_Ok_inv in Hroi.
  case_decide; [done|].
  apply bind_Ok in Hroi as (q & [_ ->]%truediv_Ok_inv & [= <-]).
  by exists cfs.
Qed.

Lemma pymax_0_nonneg_id (x : Qc) : 0 ≤ x → pymax 0 x = x.
Proof.
  intros Hx. unfold pymax. case_decide as Hlt; [done|].
  apply Qcnot_lt_le in Hlt. by apply Qcle_antisym.
Qed.

Lemma pymax_0_mono (x y : Qc) : x ≤ y → pymax 0 x ≤ pymax 0 y.
Proof.
  intros Hxy. unfold pymax. repeat case_decide; qc_lra.
Qed.

Lemma first_year_flow_series (c : Qc) (f : nat → Qc) (m : nat) :
  first_year_flow (c :: (f <$> seq 1 (S m))) = f 1%nat.
Proof. done. Qed.

(** X12.  The ['annual_cash_flow'] entry of a result (the flow of year 1):
    with a tax rate that is not negative it is
    [(revenue - costs) * (1 - tax_rate) + depreciation * tax_rate] when the
    taxable income is not negative and [revenue - costs] otherwise, and the
    salvage value is added to it when the project lasts one year. *)
Theorem annual_cash_flow_entry (capital_investment annual_revenue
    annual_operating_costs : Qc) (n : Z)
    (discount_rate tax_rate salvage_value : Qc) (r : ProfitabilityResult) :
  (1 ≤ n)%Z → 0 ≤ tax_rate →
  analyze_profitability capital_investment annual_revenue
    annual_operating_costs (PyInt n) discount_rate tax_rate salvage_value
    = Ok r →
  let gross_profit := annual_revenue - annual_operating_costs in
  let depreciation := (capital_investment - salvage_value) / Qc_of_Z n in
  annual_cash_flow r
  = (if decide (0 ≤ gross_profit - depreciation)
     then gross_profit * (1 - tax_rate) + depreciation * tax_rate
     else gross_profit)
    + (if decide (n = 1%Z) then salvage_value else 0).
Proof.
  intros Hn Htax H gross dep.
  apply analyze_profitability_fields in H as (cfs & Hcfs & _ & -> & _).
  rewrite build_cash_flows_int in Hcfs by done. injection Hcfs as <-.
  destruct (Z.to_nat n) as [|m] eqn:Hm; [lia|].
  rewrite first_year_flow_series.
  unfold annual_flow_of_year. fold gross. fold dep.
  assert ((if decide (Qc_of_nat 1 = pyvalue (PyInt n))
           then gross - dep - pymax 0 ((gross - dep) * tax_rate) + dep
                + salvage_value
           else gross - dep - pymax 0 ((gross - dep) * tax_rate) + dep)
          = (gross - dep - pymax 0 ((gross - dep) * tax_rate) + dep)
            + (if decide (n = 1%Z) then salvage_value else 0)) as ->.
  { destruct (decide (n = 1%Z)) as [->|Hn1].
    - case_decide as Hd; [done|].
      exfalso. apply Hd. exact (proj2 (pyvalue_year_eq 1 1) eq_refl).
    - case_decide as Hd; [|ring].
      apply (proj1 (pyvalue_year_eq 1 n)) in Hd.
      exfalso. apply Hn1. by rewrite <-Hd. }
  destruct (decide (0 ≤ gross - dep)) as [Hti|Hti].
  - rewrite pymax_0_nonneg_id by by apply Qcmult_nonneg_nonneg. ring.
  - rewrite pymax_0_nonpos; [ring|].
    apply Qcmult_nonpos_nonneg; [|done].
    by apply Qclt_le_weak, Qcnot_le_lt.
Qed.

Lemma annual_cash_flow_entry_witness :
  annual_cash_flow
    {| npv := 0; irr := qc 10 1; payback_period := qc 10 11;
       roi := qc 110 1; profitability_index := 1;
       annual_cash_flow := qc 110 1; total_revenue := qc 110 1;
       total_costs := 0; break_even_price := 0 |}
  = (if decide (0 ≤ qc 110 1 - 0 - (qc 100 1 - 0) / Qc_of_Z 1)
     then (qc 110 1 - 0) * (1 - 0) + (qc 100 1 - 0) / Qc_of_Z 1 * 0
     else qc 110 1 - 0)
    + (if decide (1 = 1)%Z then 0 else 0).
Proof.
  apply (annual_cash_flow_entry (qc 100 1) (qc 110 1) 0 1 (qc 1 10) 0 0);
    [lia|done|apply analyze_profitability_one_year].
Defined.

(** X13.  For a successful analysis the profitability index is
    [1 + npv / capital_investment] and the ROI is
    [(revenue - costs) / capital_investment * 100]; with a positive
    investment the index exceeds 1 exactly when the NPV is positive. *)
Theorem profitability_index_and_roi (capital_investment annual_revenue
    annual_operating_costs : Qc) (project_lifetime : pynum)
    (discount_rate tax_rate salvage_value : Qc) (r : ProfitabilityResult) :
  analyze_profitability capital_investment annual_revenue
    annual_operating_costs project_lifetime discount_rate tax_rate
    salvage_value = Ok r →
  profitability_index r = 1 + npv r / capital_investment
  ∧ roi r
    = (annual_revenue - annual_operating_costs) / capital_investment
      * qc 100 1
  ∧ (0 < capital_investment → (1 < profitability_index r ↔ 0 < npv r)).
Proof.
  intros H.
  apply analyze_profitability_fields in H
    as (cfs & _ & _ & _ & Hpi & Hroi & _ & _ & Hci).
  assert (profitability_index r = 1 + npv r / capital_investment) as Hpi'.
  { rewrite Hpi. by field. }
  split; [done|]. split; [done|]. intros Hpos. rewrite Hpi'.
  assert (0 < / capital_investment) as Hinv by by apply Qcinv_pos.
  split.
  - intros Hlt. apply Qcnot_le_lt. intros Hle.
    assert (npv r / capital_investment ≤ 0) as Hq.
    { by apply Qcmult_nonpos_nonneg; [|apply Qclt_le_weak]. }
    revert Hlt Hq. generalize (npv r / capital_investment).
    intros q Hlt Hq. qc_lra.
  - intros Hnpv.
    assert (0 < npv r / capital_investment) as Hq
      by by apply Qcmult_pos_pos.
    revert Hq. generalize (npv r / capital_investment). intros q Hq. qc_lra.
Qed.

Lemma profitability_index_and_roi_witness :
  (1 : Qc) = 1 + 0 / qc 100 1
  ∧ qc 110 1 = (qc 110 1 - 0) / qc 100 1 * qc 100 1.
Proof.
  destruct (profitability_index_and_roi _ _ _ _ _ _ _ _
              analyze_profitability_one_year) as (H1 & H2 & _).
  by split.
Defined.

Lemma discounted_flows_mono (a : Qc) (l1 l2 : list Qc) (k : nat) :
  0 < a → Forall2 Qcle l1 l2 →
  foldr Qcplus 0 (imap (λ i cf, cf / a ^ (k + i)) l1)
  ≤ foldr Qcplus 0 (imap (λ i cf, cf / a ^ (k + i)) l2).
Proof.
  intros Ha Hl. revert k.
  induction Hl as [|x y l1 l2 Hxy _ IH]; intros k; simpl; [done|].
  apply Qcplus_le_compat.
  - apply Qcmult_le_mono_nonneg_r; [|done].
    by apply Qclt_le_weak, Qcinv_pos, Qcpower_pos_lt.
  - rewrite (imap_ext (_ ∘ S) (λ i cf, cf / a ^ (S k + i))),
      (imap_ext (_ ∘ S) (λ i cf, cf / a ^ (S k + i))); [apply IH| |];
      intros i z _; simpl; by replace (k + S i)%nat with (S (k + i)) by lia.
Qed.

Lemma annual_flow_decreasing_in_tax (annual_revenue annual_operating_costs
    tax1 tax2 salvage_value annual_depreciation : Qc)
    (project_lifetime : pynum) (year : nat) :
  0 ≤ tax1 → tax1 ≤ tax2 →
  annual_flow_of_year annual_revenue annual_operating_costs tax2
    salvage_value annual_depreciation project_lifetime year
  ≤ annual_flow_of_year annual_revenue annual_operating_costs tax1
      salvage_value annual_depreciation project_lifetime year.
Proof.
  intros H1 H12. unfold annual_flow_of_year.
  set (ti := annual_revenue - annual_operating_costs - annual_depreciation).
  assert (pymax 0 (ti * tax1) ≤ pymax 0 (ti * tax2)) as Htaxes.
  { destruct (decide (0 ≤ ti)) as [Hti|Hti].
    - by apply pymax_0_mono, Qcmult_le_mono_nonneg_l.
    - apply Qcnot_le_lt, Qclt_le_weak in Hti.
      rewrite !pymax_0_nonpos; [done| |];
        apply Qcmult_nonpos_nonneg; try done. by etrans. }
  revert Htaxes. generalize (pymax 0 (ti * tax1)), (pymax 0 (ti * tax2)).
  intros t1 t2 Ht. case_decide; qc_lra.
Qed.

(** X14.  A higher tax rate never raises the NPV: for an integer lifetime
    [n >= 1], a discount rate above [-1] and tax rates [0 <= tax1 <= tax2],
    if both analyses succeed then the NPV under [tax2] is at most the NPV
    under [tax1], all else being equal. *)
Theorem npv_decreasing_in_tax (capital_investment annual_revenue
    annual_operating_costs : Qc) (n : Z)
    (discount_rate tax1 tax2 salvage_value : Qc)
    (r1 r2 : ProfitabilityResult) :
  (1 ≤ n)%Z → - 1 < discount_rate → 0 ≤ tax1 → tax1 ≤ tax2 →
  analyze_profitability capital_investment annual_revenue
    annual_operating_costs (PyInt n) discount_rate tax1 salvage_value
    = Ok r1 →
  analyze_profitability capital_investment annual_revenue
    annual_operating_costs (PyInt n) discount_rate tax2 salvage_value
    = Ok r2 →
  npv r2 ≤ npv r1.
Proof.
  intros Hn Hrate Ht1 Ht12 H1 H2.
  assert (0 < 1 + discount_rate) as Ha by qc_lra.
  assert (1 + discount_rate ≠ 0) as Ha0.
  { intros Heq. rewrite Heq in Ha. by apply Qclt_not_eq in Ha. }
  apply analyze_profitability_fields in H1 as (cfs1 & Hc1 & Hv1 & _).
  apply analyze_profitability_fields in H2 as (cfs2 & Hc2 & Hv2 & _).
  rewrite build_cash_flows_int in Hc1, Hc2 by done.
  rewrite calculate_npv_sum in Hv1, Hv2 by done.
  injection Hc1 as <-. injection Hc2 as <-.
  injection Hv1 as <-. injection Hv2 as <-.
  unfold discounted_sum. simpl. apply Qcplus_le_compat; [done|].
  apply (discounted_flows_mono (1 + discount_rate) _ _ 1 Ha).
  apply Forall2_fmap, Forall_Forall2_diag, Forall_forall.
  intros year _. by apply annual_flow_decreasing_in_tax.
Qed.

Lemma npv_decreasing_in_tax_witness :
  ∃ r1 r2,
    analyze_profitability (qc 100 1) (qc 110 1) 0 (PyInt 1) (qc 1 10)
      (qc 3 10) 0 = Ok r1
    ∧ analyze_profitability (qc 100 1) (qc 110 1) 0 (PyInt 1) (qc 1 10)
        (qc 4 10) 0 = Ok r2
    ∧ npv r2 ≤ npv r1.
Proof.
  assert (is_Ok (analyze_profitability (qc 100 1) (qc 110 1) 0 (PyInt 1)
                   (qc 1 10) (qc 3 10) 0)) as [r1 H1]
    by (eexists; vm_compute; reflexivity).
  assert (is_Ok (analyze_profitability (qc 100 1) (qc 110 1) 0 (PyInt 1)
                   (qc 1 10) (qc 4 10) 0)) as [r2 H2]
    by (eexists; vm_compute; reflexivity).
  exists r1, r2. split; [done|]. split; [done|].
  eapply (npv_decreasing_in_tax (qc 100 1) (qc 110 1) 0 1 (qc 1 10)
            (qc 3 10) (qc 4 10) 0); [lia|compute_done..|exact H1|exact H2].
Defined.

(** ** The drivers: what cannot be varied *)

Lemma call_analyze_float_lifetime (kwargs : gmap string pynum) (q : Qc) :
  kwargs !! "project_lifetime" = Some (PyFloat q) →
  is_Raise (call_analyze kwargs).
Proof.
  intros Hpl. unfold call_analyze. case_decide; [|by eexists].
  rewrite Hpl. repeat case_match; try by eexists.
  rewrite analyze_profitability_float_lifetime. by eexists.
Qed.


Lemma mapM_result_Raise {A B} (f : A → result B) (l : list A) (x : A) :
  x ∈ l → is_Raise (f x) → is_Raise (mapM f l).
Proof.
  intros Hx [e He]. induction l as [|y l IH]; simpl.
  - by apply elem_of_nil in Hx.
  - apply elem_of_cons in Hx as [<-|Hx].
    + rewrite He. by eexists.
    + destruct (f y); [|by eexists]. simpl.
      destruct (IH Hx) as [e' ->]. by eexists.
Qed.

(** X15.  The sensitivity of the project lifetime cannot be analysed: the
    perturbed lifetime is a float, which [range] refuses, so as soon as the
    ranges hold a change for ['project_lifetime'] and the base mapping has
    that key, [sensitivity_analysis] raises and returns no table. *)
Theorem sensitivity_of_lifetime_raises (base_parameters : gmap string pynum)
    (sensitivity_ranges : list (string * list Qc)) (changes : list Qc) :
  is_Some (base_parameters !! "project_lifetime") →
  ("project_lifetime", changes) ∈ sensitivity_ranges →
  changes ≠ [] →
  is_Raise (sensitivity_analysis base_parameters sensitivity_ranges).
Proof.
  intros [bv Hbv] Hin Hne. destruct changes as [|c changes]; [done|].
  rewrite sensitivity_analysis_mapM.
  apply (mapM_result_Raise _ _ ("project_lifetime", c)).
  - unfold sensitivity_pairs. apply list_elem_of_bind.
    exists ("project_lifetime", c :: changes). split; [|done].
    simpl. rewrite decide_True by by eexists. by left.
  - rewrite (perturbed_row_lookup _ _ _ _ Hbv).
    destruct (call_analyze_float_lifetime
                (<["project_lifetime" := perturbed bv c]> base_parameters)
                (pyvalue bv * (1 + c / qc 100 1))) as [e ->].
    + by rewrite lookup_insert_eq.
    + by eexists.
Qed.

Lemma sensitivity_of_lifetime_raises_witness :
  is_Raise (sensitivity_analysis one_year_project
              [("annual_revenue", [0]); ("project_lifetime", [0])]).
Proof.
  apply (sensitivity_of_lifetime_raises one_year_project _ [0]).
  - by eexists.
  - right. by left.
  - done.
Defined.

Section monte_carlo_skips.
Context `{RandomState rng}.




End monte_carlo_skips.


Section monte_carlo_lifetime.
Context `{RandomState rng}.



End monte_carlo_lifetime.


(** ** Cost indices and the module-level sensitivity analysis *)

Lemma cepci_cost_update_Ok (base_cost base_year_index current_year_index
    : Qc) :
  0 < base_year_index → 0 < current_year_index →
  cepci_cost_update base_cost base_year_index current_year_index
  = Ok (base_cost * (current_year_index / base_year_index)).
Proof.
  intros Hb Hc. unfold cepci_cost_update.
  rewrite decide_False.
  - rewrite truediv_Ok; [done|].
    by apply not_eq_sym, Qclt_not_eq.
  - intros [H|H]; [exact (Qclt_not_le _ _ Hb H)|exact (Qclt_not_le _ _ Hc H)].
Qed.

(** X18.  CEPCI updates compose: with positive indices, bringing a cost from
    index [a] to index [b] and then from [b] to [c] gives what the direct
    update from [a] to [c] gives; in particular updating to another index
    and back returns the cost. *)
Theorem cepci_updates_compose (base_cost a b c : Qc) :
  0 < a → 0 < b → 0 < c →
  (cost ← cepci_cost_update base_cost a b; cepci_cost_update cost b c)
  = cepci_cost_update base_cost a c
  ∧ (cost ← cepci_cost_update base_cost a b; cepci_cost_update cost b a)
    = Ok base_cost.
Proof.
  intros Ha Hb Hc.
  assert (a ≠ 0) by by apply not_eq_sym, Qclt_not_eq.
  assert (b ≠ 0) by by apply not_eq_sym, Qclt_not_eq.
  rewrite !cepci_cost_update_Ok by done. simpl.
  rewrite !cepci_cost_update_Ok by done.
  split; f_equal; by field.
Qed.

Lemma cepci_updates_compose_witness :
  (cost ← cepci_cost_update (qc 1000 1) (qc 596 1) (qc 800 1);
   cepci_cost_update cost (qc 800 1) (qc 850 1))
  = cepci_cost_update (qc 1000 1) (qc 596 1) (qc 850 1)
  ∧ (cost ← cepci_cost_update (qc 1000 1) (qc 596 1) (qc 800 1);
     cepci_cost_update cost (qc 800 1) (qc 596 1))
    = Ok (qc 1000 1).
Proof.
  apply (cepci_updates_compose (qc 1000 1) (qc 596 1) (qc 800 1)
           (qc 850 1)); compute_done.
Defined.

Lemma sensitivity_body_zero_base (base_value change_percent : Qc)
    (calculation_function : Qc → result Qc)
    (sensitivity_results : gmap Qc Qc) :
  is_Raise (Calculations.sensitivity_body base_value 0 calculation_function
              sensitivity_results change_percent).
Proof.
  unfold Calculations.sensitivity_body.
  destruct (calculation_function _) as [new_result|e]; simpl.
  - by exists ZeroDivisionError.
  - by exists e.
Qed.

(** X19.  When the calculation function returns [0] at the base value, the
    module-level [sensitivity_analysis] cannot express a relative change: it
    raises [ValueError] as soon as there is one change to evaluate, and
    returns the empty dictionary when there is none. *)
Theorem sensitivity_zero_base_result (base_value : Qc)
    (parameter_changes : list Qc) (calculation_function : Qc → result Qc) :
  calculation_function base_value = Ok 0 →
  Calculations.sensitivity_analysis base_value parameter_changes
    calculation_function
  = match parameter_changes with
    | [] => Ok ∅
    | _ :: _ => Raise ValueError
    end.
Proof.
  intros Hbase. unfold Calculations.sensitivity_analysis.
  rewrite Hbase.
  destruct parameter_changes as [|change_percent parameter_changes]; [done|].
  change (Ok 0 ≫= ?k) with (k 0). cbv beta.
  change (for_each ?body ?acc (?x :: ?l))
    with (body acc x ≫= λ acc', for_each body acc' l).
  destruct (sensitivity_body_zero_base base_value change_percent
              calculation_function ∅) as [e ->].
  done.
Qed.

Lemma sensitivity_zero_base_result_witness :
  Calculations.sensitivity_analysis 0 [qc 10 1] (λ x, Ok (x * x))
  = Raise ValueError.
Proof.
  apply (sensitivity_zero_base_result 0 [qc 10 1] (λ x, Ok (x * x))).
  compute_done.
Defined.

Lemma sensitivity_body_proportional (base_value k change_percent : Qc)
    (sensitivity_results : gmap Qc Qc) :
  k * base_value ≠ 0 →
  Calculations.sensitivity_body base_value (k * base_value)
    (λ x, Ok (k * x)) sensitivity_results change_percent
  = Ok (<[change_percent := change_percent]> sensitivity_results).
Proof.
  intros Hk. unfold Calculations.sensitivity_body. simpl.
  rewrite truediv_Ok by done. simpl. do 2 f_equal.
  assert (qc 100 1 ≠ 0) by compute_done.
  assert (k ≠ 0) by (intros ->; apply Hk; ring).
  assert (base_value ≠ 0) by (intros ->; apply Hk; ring).
  by field.
Qed.

Lemma sensitivity_loop_proportional (base_value k : Qc)
    (parameter_changes : list Qc) :
  k * base_value ≠ 0 →
  ∀ sensitivity_results : gmap Qc Qc,
    ∃ m,
      for_each (Calculations.sensitivity_body base_value (k * base_value)
                  (λ x, Ok (k * x))) sensitivity_results parameter_changes
      = Ok m
      ∧ ∀ c, m !! c = if decide (c ∈ parameter_changes) then Some c
                      else sensitivity_results !! c.
Proof.
  intros Hk.
  induction parameter_changes as [|change parameter_changes IH];
    intros sensitivity_results; cbn [for_each].
  - exists sensitivity_results. split; [done|]. intros c.
    rewrite decide_False; [done|]. apply not_elem_of_nil.
  - rewrite sensitivity_body_proportional by done. simpl.
    destruct (IH (<[change := change]> sensitivity_results))
      as (m & -> & Hm).
    exists m. split; [done|]. intros c. rewrite Hm.
    destruct (decide (c ∈ parameter_changes)) as [Hin|Hin].
    + rewrite decide_True; [done|]. by right.
    + destruct (decide (c = change)) as [->|Hne].
      * rewrite decide_True by left. apply lookup_insert_eq.
      * rewrite decide_False.
        -- by apply lookup_insert_ne.
        -- by intros [?|?]%elem_of_cons.
Qed.

(** X20.  For a calculation function proportional to its argument,
    [x ↦ k * x] with a nonzero base result, the module-level
    [sensitivity_analysis] returns a dictionary that maps every requested
    percentage change to itself and has no other key. *)
Theorem sensitivity_of_proportional_function (base_value k : Qc)
    (parameter_changes : list Qc) :
  k * base_value ≠ 0 →
  ∃ m,
    Calculations.sensitivity_analysis base_value parameter_changes
      (λ x, Ok (k * x)) = Ok m
    ∧ ∀ c, m !! c = if decide (c ∈ parameter_changes) then Some c else None.
Proof.
  intros Hk. unfold Calculations.sensitivity_analysis. simpl.
  destruct (sensitivity_loop_proportional base_value k parameter_changes
              Hk ∅) as (m & -> & Hm).
  exists m. split; [done|]. intros c. rewrite Hm.
  by rewrite lookup_empty.
Qed.

Lemma sensitivity_of_proportional_function_witness :
  ∃ m,
    Calculations.sensitivity_analysis (qc 50 1) [- qc 10 1; qc 10 1]
      (λ x, Ok (qc 3 1 * x)) = Ok m
    ∧ ∀ c, m !! c = if decide (c ∈ [- qc 10 1; qc 10 1]) then Some c
                    else None.
Proof.
  apply (sensitivity_of_proportional_function (qc 50 1) (qc 3 1)
           [- qc 10 1; qc 10 1]).
  compute_done.
Defined.

(** ** Capital and overhead costs *)

(** X21.  The total capital investment is a fixed multiple of the installed
    equipment cost: [2.001] times for a pharmaceutical plant and [1.70775]
    times for a chemical plant and for every other plant type, which falls
    back to the chemical factors. *)
Theorem total_capital_investment_multiple (total_installed_cost : Qc)
    (plant_type : string) :
  total_capital_investment
    (estimate_total_capital_investment total_installed_cost plant_type)
  = total_installed_cost
    * (if decide (plant_type = "pharmaceutical") then qc 2001 1000
       else qc 170775 100000).
Proof.
  unfold estimate_total_capital_investment, factors. simpl list_to_map.
  destruct (decide (plant_type = "pharmaceutical")) as [->|Hp].
  - rewrite lookup_insert_ne by done. rewrite lookup_insert_eq. simpl.
    replace (qc 2001 1000)
      with ((1 + qc 20 100 + qc 25 100) * (1 + qc 20 100) * (1 + qc 15 100))
      by compute_done.
    ring.
  - replace (qc 170775 100000)
      with ((1 + qc 15 100 + qc 20 100) * (1 + qc 15 100) * (1 + qc 10 100))
      by compute_done.
    destruct (decide (plant_type = "chemical")) as [->|Hc].
    + rewrite lookup_insert_eq. simpl. ring.
    + rewrite !lookup_insert_ne by done. rewrite lookup_empty. simpl. ring.
Qed.

Lemma split_first_no_underscore (s prefix suffix : string) :
  split_first s ≠ (prefix +:+ String "_" suffix)%string.
Proof.
  revert prefix. induction s as [|c s IH]; intros prefix; simpl.
  - by destruct prefix.
  - destruct (Ascii.eqb_spec c "_") as [->|Hc].
    + by destruct prefix.
    + destruct prefix as [|c' prefix]; simpl.
      * intros [= ? _]. done.
      * intros [= _ H]. by apply IH in H.
Qed.

Lemma installation_factor_values (s : string) :
  default (qc 3 1) (installation_factors !! split_first s)
  ∈ [qc 35 10; qc 2 1; qc 22 10; qc 3 1].
Proof.
  pose proof (split_first_no_underscore s "distillation" "column") as Hd.
  pose proof (split_first_no_underscore s "heat" "exchanger") as Hh.
  simpl in Hd, Hh. generalize dependent (split_first s). intros k Hd Hh.
  unfold installation_factors. simpl list_to_map.
  destruct (decide (k = "reactor")) as [->|?];
    [rewrite lookup_insert_eq; simpl; set_solver|].
  rewrite lookup_insert_ne by done.
  rewrite lookup_insert_ne by done.
  rewrite lookup_insert_ne by done.
  destruct (decide (k = "pump")) as [->|?];
    [rewrite lookup_insert_eq; simpl; set_solver|].
  rewrite lookup_insert_ne by done.
  destruct (decide (k = "tank")) as [->|?];
    [rewrite lookup_insert_eq; simpl; set_solver|].
  rewrite lookup_insert_ne by done.
  destruct (decide (k = "default")) as [->|?];
    [rewrite lookup_insert_eq; simpl; set_solver|].
  rewrite lookup_insert_ne by done. rewrite lookup_empty. simpl.
  set_solver.
Qed.

(** The cost that [calculate_installed_cost] reads from a value. *)
Lemma installed_cost_body_Ok (acc acc' : gmap string Qc * Qc)
    (equipment_id : string) (data : cost_data) :
  equipment_id ≠ "total_equipment_cost" →
  installed_cost_body acc (equipment_id, data) = Ok acc' →
  ∃ cost,
    match data with
    | CostNumber c => c = cost
    | CostDict entries => entries !! "total_cost" = Some cost
    end
    ∧ acc' =
      (<[equipment_id :=
           cost * default (qc 3 1)
                    (installation_factors !! split_first equipment_id)]>
         acc.1,
       acc.2 + cost * default (qc 3 1)
                        (installation_factors !! split_first equipment_id)).
Proof.
  intros Hid. unfold installed_cost_body. rewrite decide_False by done.
  destruct data as [c|entries].
  - intros [= <-]. by exists c.
  - destruct (entries !! "total_cost") as [c|]; [|done].
    intros [= <-]. by exists c.
Qed.

Lemma installed_cost_body_frame (acc acc' : gmap string Qc * Qc)
    (item : string * cost_data) (key : string) :
  installed_cost_body acc item = Ok acc' → key ≠ item.1 →
  acc'.1 !! key = acc.1 !! key.
Proof.
  destruct item as [equipment_id data]. unfold installed_cost_body.
  case_decide; [by intros [= <-]|].
  intros (a & _ & [= <-])%bind_Ok Hne. simpl.
  by apply lookup_insert_ne.
Qed.

Lemma installed_cost_loop_frame (equipment_costs : list (string * cost_data))
    (key : string) :
  key ∉ equipment_costs.*1 →
  ∀ acc acc',
    for_each installed_cost_body acc equipment_costs = Ok acc' →
    acc'.1 !! key = acc.1 !! key.
Proof.
  induction equipment_costs as [|item equipment_costs IH];
    intros Hkey acc acc'; cbn [for_each].
  - by intros [= <-].
  - apply not_elem_of_cons in Hkey as [Hne Hkey].
    intros (acc1 & Hbody & Hrest)%bind_Ok.
    rewrite (IH Hkey _ _ Hrest).
    by eapply installed_cost_body_frame.
Qed.

Lemma installed_cost_loop_entry (equipment_costs : list (string * cost_data))
    (equipment_id : string) (data : cost_data) :
  NoDup equipment_costs.*1 →
  (equipment_id, data) ∈ equipment_costs →
  equipment_id ≠ "total_equipment_cost" →
  ∀ acc acc',
    for_each installed_cost_body acc equipment_costs = Ok acc' →
    ∃ cost,
      match data with
      | CostNumber c => c = cost
      | CostDict entries => entries !! "total_cost" = Some cost
      end
      ∧ acc'.1 !! equipment_id
        = Some (cost * default (qc 3 1)
                         (installation_factors !! split_first equipment_id)).
Proof.
  intros Hnodup Hin Hid.
  induction equipment_costs as [|item equipment_costs IH];
    intros acc acc'; cbn [for_each].
  - by apply elem_of_nil in Hin.
  - apply (proj1 (list.NoDup_cons _ _)) in Hnodup as [Hfresh Hnodup].
    intros (acc1 & Hbody & Hrest)%bind_Ok.
    apply elem_of_cons in Hin as [<-|Hin].
    + destruct (installed_cost_body_Ok _ _ _ _ Hid Hbody) as (cost & ? & ->).
      exists cost. split; [done|]. simpl in Hfresh.
      rewrite (installed_cost_loop_frame _ _ Hfresh _ _ Hrest). simpl.
      apply lookup_insert_eq.
    + by eapply IH.
Qed.

(** X22.  [calculate_installed_cost] looks the installation factor up under
    the part of the equipment id before its first underscore, so the factors
    [4.0] of ['distillation_column'] and [2.5] of ['heat_exchanger'] are never
    applied: every equipment entry of a returned breakdown is the equipment
    cost times [3.5], [2.0], [2.2] or the default [3.0]. *)
Theorem installed_cost_factor (equipment_costs : list (string * cost_data))
    (installed_costs : gmap string Qc) (equipment_id : string)
    (data : cost_data) :
  calculate_installed_cost equipment_costs = Ok installed_costs →
  NoDup equipment_costs.*1 →
  (equipment_id, data) ∈ equipment_costs →
  equipment_id ≠ "total_equipment_cost" →
  equipment_id ≠ "total_installed_cost" →
  ∃ cost installation_factor,
    match data with
    | CostNumber c => c = cost
    | CostDict entries => entries !! "total_cost" = Some cost
    end
    ∧ installed_costs !! equipment_id = Some (cost * installation_factor)
    ∧ installation_factor ∈ [qc 35 10; qc 2 1; qc 22 10; qc 3 1].
Proof.
  intros Hrun Hnodup Hin Hid Hid'. unfold calculate_installed_cost in Hrun.
  apply bind_Ok in Hrun as (acc & Hloop & [= <-]).
  destruct (installed_cost_loop_entry _ _ _ Hnodup Hin Hid _ _ Hloop)
    as (cost & Hcost & Hentry).
  exists cost, (default (qc 3 1)
                  (installation_factors !! split_first equipment_id)).
  split; [done|]. split.
  - by rewrite lookup_insert_ne.
  - apply installation_factor_values.
Qed.

Lemma installed_cost_factor_witness :
  ∃ cost installation_factor,
    qc 1000 1 = cost
    ∧ installed_equipment !! "heat_exchanger_E1"
      = Some (cost * installation_factor)
    ∧ installation_factor ∈ [qc 35 10; qc 2 1; qc 22 10; qc 3 1].
Proof.
  apply (installed_cost_factor purchased_equipment installed_equipment
           "heat_exchanger_E1" (CostNumber (qc 1000 1))).
  - compute_done.
  - compute_done.
  - set_solver.
  - done.
  - done.
Defined.

Lemma installed_cost_loop_total (equipment_costs : list (string * cost_data)) :
  NoDup equipment_costs.*1 →
  ∀ acc acc',
    for_each installed_cost_body acc equipment_costs = Ok acc' →
    acc'.2
    = acc.2
      + foldr Qcplus 0
          ((λ equipment_id, default 0 (acc'.1 !! equipment_id))
             <$> filter (λ equipment_id,
                          equipment_id ≠ "total_equipment_cost")
                        equipment_costs.*1).
Proof.
  induction equipment_costs as [|[equipment_id data] equipment_costs IH];
    intros Hnodup acc acc'; cbn [for_each].
  - intros [= <-]. simpl. ring.
  - csimpl in Hnodup.
    apply (proj1 (list.NoDup_cons _ _)) in Hnodup as [Hfresh Hnodup].
    intros (acc1 & Hbody & Hrest)%bind_Ok. csimpl.
    rewrite (IH Hnodup _ _ Hrest).
    destruct (decide (equipment_id = "total_equipment_cost")) as [->|Hid].
    + rewrite filter_cons_False by (by intros ?).
      unfold installed_cost_body in Hbody. rewrite decide_True in Hbody by done.
      by injection Hbody as <-.
    + rewrite filter_cons_True by done. csimpl.
      rewrite (installed_cost_loop_frame _ _ Hfresh _ _ Hrest).
      destruct (installed_cost_body_Ok _ _ _ _ Hid Hbody) as (cost & _ & ->).
      simpl. rewrite lookup_insert_eq. simpl. ring.
Qed.

(** X23.  The ['total_installed_cost'] entry of a returned breakdown is the
    sum of its equipment entries, the ['total_equipment_cost'] item of the
    input not being counted, provided the input has no key
    ['total_installed_cost'] of its own. *)
Theorem installed_total_is_sum (equipment_costs : list (string * cost_data))
    (installed_costs : gmap string Qc) :
  calculate_installed_cost equipment_costs = Ok installed_costs →
  NoDup equipment_costs.*1 →
  "total_installed_cost" ∉ equipment_costs.*1 →
  installed_costs !! "total_installed_cost"
  = Some (foldr Qcplus 0
            ((λ equipment_id, default 0 (installed_costs !! equipment_id))
               <$> filter (λ equipment_id,
                            equipment_id ≠ "total_equipment_cost")
                          equipment_costs.*1)).
Proof.
  intros Hrun Hnodup Hkey. unfold calculate_installed_cost in Hrun.
  apply bind_Ok in Hrun as (acc & Hloop & [= <-]).
  rewrite lookup_insert_eq. f_equal.
  rewrite (installed_cost_loop_total _ Hnodup _ _ Hloop). simpl.
  rewrite Qcplus_0_l. f_equal.
  apply Forall_fmap_ext_1, list.Forall_forall.
  intros equipment_id [_ Hin]%list_elem_of_filter.
  rewrite lookup_insert_ne; [done|]. by intros <-.
Qed.

Lemma installed_total_is_sum_witness :
  installed_equipment !! "total_installed_cost"
  = Some (foldr Qcplus 0
            ((λ equipment_id, default 0 (installed_equipment !! equipment_id))
               <$> filter (λ equipment_id,
                            equipment_id ≠ "total_equipment_cost")
                          purchased_equipment.*1)).
Proof.
  apply (installed_total_is_sum purchased_equipment installed_equipment);
    compute_done.
Defined.

(** X24.  The overhead breakdown totals to the overhead factor: its
    ['total_overhead_cost'] is [overhead_factor] times the sum of the direct
    costs, whatever the factor; the fixed shares of 15, 10 and 5 per cent
    leave [overhead_factor - 0.30] to the general overhead, which is negative
    for a factor below [0.30]. *)
Theorem overhead_total (direct_costs : list (string * Qc))
    (overhead_factor : Qc) :
  getitem (calculate_overhead_costs direct_costs overhead_factor)
    "total_overhead_cost"
  = Some (sum_values direct_costs * overhead_factor)
  ∧ (getitem (calculate_overhead_costs direct_costs overhead_factor)
       "general_overhead"
     = Some (sum_values direct_costs * (overhead_factor - qc 30 100))).
Proof.
  unfold calculate_overhead_costs. cbn [app getitem].
  rewrite !decide_False by done. rewrite !decide_True by done.
  split; [|done]. f_equal. unfold sum_values. simpl.
  replace (Q2Qc 0) with 0 by done.
  assert (qc 15 100 + qc 10 100 + qc 5 100 = qc 30 100) as Hshares
    by compute_done.
  rewrite <-Hshares. ring.
Qed.
